(** * krabsetw: the GUID parser and the container-id extractor

    A shallow embedding of [krabs::guid_parser] (krabs/krabs/guid.hpp) and of
    [EventRecordMetadata::GetContainerId]
    (Microsoft.O365.Security.Native.ETW/EventRecordMetadata.hpp), with the
    properties their specification states about them.
    Conventions of the embedding:
    - a [const char*] argument is the list of characters readable from the
      pointer on; [str + k] is [drop k str], [str[i]] is [str !! i];
    - a call either returns, or touches memory outside the buffer it was
      given, or stops at a failed [assert]: the type [run];
    - a reference parameter ([unsigned char&], [T&]) is passed in as its
      current value and handed back with the result;
    - C integers are [Z] with the conversions written out. *)

From Stdlib Require Import ZArith Lia Ascii String.
From stdpp Require Import base option list strings.

Local Open Scope Z_scope.

(** ** Calls that may not return *)

Inductive run (A : Type) : Type :=
| Returns (a : A)
| OutOfBounds
| AssertionFailed.

Arguments Returns {A} a.
Arguments OutOfBounds {A}.
Arguments AssertionFailed {A}.

Definition run_bind {A B : Type} (m : run A) (k : A -> run B) : run B :=
  match m with
  | Returns a => k a
  | OutOfBounds => OutOfBounds
  | AssertionFailed => AssertionFailed
  end.

Notation "'let*' x ':=' m 'in' k" := (run_bind m (fun x => k))
  (at level 10, x pattern, m at level 200, k at level 200).

(** [p[i]] for a pointer into a caller-owned buffer. *)
Definition read {A : Type} (p : list A) (i : nat) : run A :=
  match p !! i with
  | Some x => Returns x
  | None => OutOfBounds
  end.

(** ** Characters and integer types *)

(** [char] is a signed 8-bit type for the compiler krabs is built with;
    [(int)c] sign-extends. *)
Definition int_of_char (c : ascii) : Z :=
  let n := Z.of_N (N_of_ascii c) in
  if n <? 128 then n else n - 256.

Definition UCHAR_MAX : Z := 255.

(** [lo <= c && c <= hi] on promoted [char]s. *)
Definition char_in (lo hi c : ascii) : bool :=
  (int_of_char lo <=? int_of_char c) && (int_of_char c <=? int_of_char hi).

(** An unsigned integer type, given by its [sizeof]. *)
Record uint_type : Type := { sizeof : nat }.

Definition unsigned_char : uint_type := {| sizeof := 1 |}.
Definition unsigned_short : uint_type := {| sizeof := 2 |}.
Definition unsigned_long : uint_type := {| sizeof := 4 |}.

Definition bit_width (T : uint_type) : Z := 8 * Z.of_nat (sizeof T).

(** [static_cast<T>(z)] *)
Definition static_cast (T : uint_type) (z : Z) : Z := z mod 2 ^ bit_width T.

(** ** guid_parser::hex_octet_to_byte (guid.hpp:167) *)

(** The second half of the function: the least significant digit, the
    assertion and the store. The assertion is taken as compiled in; it never
    fails ([hex_octet_to_byte_eq] below), so a build with NDEBUG computes the
    same. *)
Definition hex_octet_lsd (lsd : ascii) (value byte_output : Z) : run (bool * Z) :=
  let finish (value : Z) : run (bool * Z) :=
    if (0 <=? value) && (value <=? UCHAR_MAX)
    then Returns (true, static_cast unsigned_char value)
    else AssertionFailed in
  if char_in "0" "9" lsd then
    finish (Z.lor value (Z.land (int_of_char lsd) 0x0F))
  else if char_in "A" "F" lsd || char_in "a" "f" lsd then
    finish (Z.lor value (Z.land (int_of_char lsd) 0x0F + 9))
  else
    Returns (false, byte_output).

Definition hex_octet_to_byte (str_input : list ascii) (byte_output : Z)
  : run (bool * Z) :=
  let value := 0 in
  let* msd := read str_input 0 in
  let* lsd := read str_input 1 in
  if char_in "0" "9" msd then
    hex_octet_lsd lsd (Z.lor value (Z.shiftl (Z.land (int_of_char msd) 0x0F) 4))
      byte_output
  else if char_in "A" "F" msd || char_in "a" "f" msd then
    hex_octet_lsd lsd
      (Z.lor value (Z.shiftl (Z.land (int_of_char msd) 0x0F + 9) 4)) byte_output
  else
    Returns (false, byte_output).

(** ** guid_parser::hex_string_to_number<T> (guid.hpp:211) *)

(** The [for] loop, [todo] iterations from index [i] on. [Some value] when
    the loop runs to its end, [None] when it leaves by [return false]. *)
Fixpoint hex_string_to_number_for (T : uint_type) (str_input : list ascii)
    (todo i : nat) (value byte : Z) : run (option Z) :=
  match todo with
  | O => Returns (Some value)
  | S todo' =>
      let* (ok, byte) := hex_octet_to_byte (drop (i * 2) str_input) byte in
      if negb ok then Returns None
      else
        let value :=
          static_cast T (Z.lor (Z.shiftl value 8) (static_cast T byte)) in
        hex_string_to_number_for T str_input todo' (S i) value byte
  end.

Definition hex_string_to_number (T : uint_type) (str_input : list ascii)
    (int_output : Z) : run (bool * Z) :=
  let byte_count := sizeof T in
  let value := 0 in
  let byte := 0 in
  let* r := hex_string_to_number_for T str_input byte_count 0 value byte in
  match r with
  | None => Returns (false, int_output)
  | Some value => Returns (true, value)
  end.

(** ** guid_parser::hex_string_to_bytes (guid.hpp:232) *)

(** The [for] loop; [byte_output[i]] is handed to the octet decoder by
    reference, so whatever the decoder leaves in it is in the buffer. *)
Fixpoint hex_string_to_bytes_for (str_input : list ascii) (byte_output : list Z)
    (todo i : nat) : run (bool * list Z) :=
  match todo with
  | O => Returns (true, byte_output)
  | S todo' =>
      let* cell := read byte_output i in
      let* (ok, cell) := hex_octet_to_byte (drop (i * 2) str_input) cell in
      let byte_output := <[i:=cell]> byte_output in
      if negb ok then Returns (false, byte_output)
      else hex_string_to_bytes_for str_input byte_output todo' (S i)
  end.

Definition hex_string_to_bytes (str_input : list ascii) (byte_output : list Z)
    (byte_count : nat) : run (bool * list Z) :=
  hex_string_to_bytes_for str_input byte_output byte_count 0.

(** ** guid_parser::parse_guid (guid.hpp:245) *)

(** The Windows [GUID] structure (guiddef.h, not part of the repository):
    [unsigned long Data1; unsigned short Data2; unsigned short Data3;
    unsigned char Data4[8]]. *)
Record GUID : Type := {
  Data1 : Z;
  Data2 : Z;
  Data3 : Z;
  Data4 : list Z
}.

(** [GUID guid = { 0 }] *)
Definition GUID_zero : GUID :=
  {| Data1 := 0; Data2 := 0; Data3 := 0; Data4 := replicate 8 0 |}.

(** The three [std::runtime_error]s of parse_guid, by their message. *)
Inductive runtime_error : Type :=
| incorrect_length (expected got : Z)
    (* "Input data has incorrect length. Expected <expected>, got <got>" *)
| missing_hyphen
    (* "Missing a hyphen where one was expected." *)
| non_hex_digits.
    (* "GUID string contains non-hex digits where hex digits are expected." *)

Inductive parsed : Type :=
| Ok (guid : GUID)
| Throw (e : runtime_error).

Definition UUID_STRING_LENGTH : Z := 36.
Definition DELIMITER : Z := int_of_char "-".
Definition STR_POSITION_DATA1 : nat := 0.
Definition STR_POSITION_DATA2 : nat := 8 + 1.
Definition STR_POSITION_DATA3 : nat := STR_POSITION_DATA2 + 4 + 1.
Definition STR_POSITION_DATA4_PART1 : nat := STR_POSITION_DATA3 + 4 + 1.
Definition STR_POSITION_DATA4_PART2 : nat := STR_POSITION_DATA4_PART1 + 4 + 1.

(** [str[pos] != DELIMITER] *)
Definition not_delimiter (str : list ascii) (pos : nat) : run bool :=
  let* c := read str pos in
  Returns (negb (int_of_char c =? DELIMITER)).

(** [a || b] with the right operand evaluated only when needed. *)
Definition or_else (a b : run bool) : run bool :=
  let* x := a in if x then Returns true else b.

(** [success && f(...)] where [f] writes into the GUID under construction. *)
Definition and_then (a : run (bool * GUID)) (f : GUID -> run (bool * GUID))
  : run (bool * GUID) :=
  let* (success, guid) := a in
  if success then f guid else Returns (false, guid).

Definition parse_guid (str : list ascii) (length : Z) : run parsed :=
  if negb (length =? UUID_STRING_LENGTH) then
    Returns (Throw (incorrect_length UUID_STRING_LENGTH length))
  else
    let guid := GUID_zero in
    let* no_hyphen :=
      or_else (not_delimiter str (STR_POSITION_DATA2 - 1))
        (or_else (not_delimiter str (STR_POSITION_DATA3 - 1))
           (or_else (not_delimiter str (STR_POSITION_DATA4_PART1 - 1))
              (not_delimiter str (STR_POSITION_DATA4_PART2 - 1)))) in
    if no_hyphen then Returns (Throw missing_hyphen)
    else
      let* (success, guid) :=
        and_then
          (and_then
             (and_then
                (and_then
                   (let* (ok, d) :=
                      hex_string_to_number unsigned_long
                        (drop STR_POSITION_DATA1 str) (Data1 guid) in
                    Returns (ok, {| Data1 := d; Data2 := Data2 guid;
                                    Data3 := Data3 guid;
                                    Data4 := Data4 guid |}))
                   (fun guid =>
                      let* (ok, d) :=
                        hex_string_to_number unsigned_short
                          (drop STR_POSITION_DATA2 str) (Data2 guid) in
                      Returns (ok, {| Data1 := Data1 guid; Data2 := d;
                                      Data3 := Data3 guid;
                                      Data4 := Data4 guid |})))
                (fun guid =>
                   let* (ok, d) :=
                     hex_string_to_number unsigned_short
                       (drop STR_POSITION_DATA3 str) (Data3 guid) in
                   Returns (ok, {| Data1 := Data1 guid; Data2 := Data2 guid;
                                   Data3 := d; Data4 := Data4 guid |})))
             (fun guid =>
                let* (ok, bytes) :=
                  hex_string_to_bytes (drop STR_POSITION_DATA4_PART1 str)
                    (drop 0 (Data4 guid)) 2 in
                Returns (ok, {| Data1 := Data1 guid; Data2 := Data2 guid;
                                Data3 := Data3 guid;
                                Data4 := take 0 (Data4 guid) ++ bytes |})))
          (fun guid =>
             let* (ok, bytes) :=
               hex_string_to_bytes (drop STR_POSITION_DATA4_PART2 str)
                 (drop 2 (Data4 guid)) 6 in
             Returns (ok, {| Data1 := Data1 guid; Data2 := Data2 guid;
                             Data3 := Data3 guid;
                             Data4 := take 2 (Data4 guid) ++ bytes |})) in
      if negb success then Returns (Throw non_hex_digits)
      else Returns (Ok guid).

(** ** guid::guid(const std::wstring&) and std::to_wstring (guid.hpp:107, 287) *)

(** A wide string is the list of its [wchar_t] code units; [c_str()] and
    string literals end with a 0 unit. *)
Definition wchar_t : uint_type := {| sizeof := 2 |}.

(** The characters of the null-terminated wide string at a pointer. *)
Fixpoint wcs (p : list Z) : list Z :=
  match p with
  | [] => []
  | w :: p' => if w =? 0 then [] else w :: wcs p'
  end.

Definition S_OK : Z := 0.

(** [FAILED(hr)]: an HRESULT is a signed 32-bit value, failures are negative. *)
Definition FAILED (hr : Z) : bool := hr <? 0.

(** What the constructor of [krabs::guid] from a string ends in. *)
Inductive constructed : Type :=
| Constructed (guid_ : GUID)
| construction_error (guidStr : list ascii) (hr : Z).
    (* std::runtime_error:
       "Error in constructing guid from string (<guidStr>), hr = 0x<hr>" *)

(** What [std::to_wstring] ends in. *)
Inductive printed : Type :=
| Printed (text : list Z)
| bad_alloc.

Section Platform.
(** The two COM functions the string conversions delegate to; they are
    operating-system code. Each returns its HRESULT and what it stores
    through its output pointer. *)
Variable CLSIDFromString : list Z -> Z * GUID.
Variable StringFromCLSID : GUID -> Z * list Z.

Definition guid_of_wstring (guid : list Z) : constructed :=
  let '(hr, guid_) := CLSIDFromString (guid ++ [0]) in
  if FAILED hr then
    let guidStr :=
      map (fun w => ascii_of_N (Z.to_N (static_cast unsigned_char w))) guid in
    construction_error guidStr hr
  else Constructed guid_.

Definition to_wstring (guid : GUID) : printed :=
  let '(hr, guidString) := StringFromCLSID guid in
  if FAILED hr then bad_alloc
  else Printed (wcs guidString).
End Platform.

(** ** EventRecordMetadata::GetContainerId (EventRecordMetadata.hpp:168) *)

(** The parts of the Windows structures [EVENT_HEADER_EXTENDED_DATA_ITEM] and
    [EVENT_RECORD] (evntcons.h) that the function reads. [DataPtr] is the
    list of bytes readable at the pointer. *)
Record EVENT_HEADER_EXTENDED_DATA_ITEM : Type := {
  ExtType : Z;
  DataSize : Z;
  DataPtr : list ascii
}.

Record EVENT_RECORD : Type := {
  ExtendedDataCount : nat;
  ExtendedData : list EVENT_HEADER_EXTENDED_DATA_ITEM
}.

(** A managed call returns or throws ContainerIdFormatException, whose
    message is formatted from [errorCode] and [guidData]. *)
Inductive managed (A : Type) : Type :=
| Result (a : A)
| ContainerIdFormatException (errorCode : Z) (guidData : list Z).

Arguments Result {A} a.
Arguments ContainerIdFormatException {A} errorCode guidData.

(** A string literal as a wide string, without its terminator. *)
Definition wide (s : string) : list Z :=
  map (fun c => Z.of_N (N_of_ascii c)) (list_ascii_of_string s).

Definition CONTAINER_ID_DATA_LENGTH_IN_BYTES : nat := 36.

(** [assert(cond)]: nothing when compiled with NDEBUG, otherwise the call
    stops when [cond] is false. *)
Definition assert (NDEBUG : bool) (cond : bool) : run unit :=
  if NDEBUG || cond then Returns tt else AssertionFailed.

(** The copy loop, [todo] iterations from index [c] on. *)
Fixpoint copy_container_id (data : list ascii) (guid_string_buffer : list Z)
    (todo c : nat) : run (list Z) :=
  match todo with
  | O => Returns guid_string_buffer
  | S todo' =>
      let* ch := read data c in
      copy_container_id data
        (<[(c + 1)%nat := static_cast wchar_t (int_of_char ch)]>
           guid_string_buffer)
        todo' (S c)
  end.

Section GetContainerId.
(** The tag of a container-id item (a constant of evntcons.h). *)
Variable EVENT_HEADER_EXT_TYPE_CONTAINER_ID : Z.
Variable CLSIDFromString : list Z -> Z * GUID.
(** [System::Guid] and the conversion to it (Guid.hpp). *)
Variable Guid : Type.
Variable ConvertGuid : GUID -> Guid.

(** From the call of CLSIDFromString to the [return]. *)
Definition parse_container_id (guid_string_buffer : list Z)
  : managed (option Guid) :=
  let '(guid_conversion_error, container_guid) :=
    CLSIDFromString guid_string_buffer in
  if negb (guid_conversion_error =? S_OK) then
    let guidData := wcs guid_string_buffer in
    let errorCode := guid_conversion_error in
    ContainerIdFormatException errorCode guidData
  else Result (Some (ConvertGuid container_guid)).

(** The body of [if (extended_data.ExtType == ...)]. *)
Definition container_id_of (NDEBUG : bool)
    (extended_data : EVENT_HEADER_EXTENDED_DATA_ITEM)
  : run (managed (option Guid)) :=
  let* _ := assert NDEBUG
              (DataSize extended_data
               =? Z.of_nat CONTAINER_ID_DATA_LENGTH_IN_BYTES) in
  let guid_string_buffer :=
    wide "{00000000-0000-0000-0000-000000000000}" ++ [0] in
  let* guid_string_buffer :=
    copy_container_id (DataPtr extended_data) guid_string_buffer
      CONTAINER_ID_DATA_LENGTH_IN_BYTES 0 in
  Returns (parse_container_id guid_string_buffer).

(** The scan, [todo] iterations from index [i] on. *)
Fixpoint GetContainerId_for (NDEBUG : bool) (record_ : EVENT_RECORD)
    (todo i : nat) : run (managed (option Guid)) :=
  match todo with
  | O => Returns (Result None)
  | S todo' =>
      let* extended_data := read (ExtendedData record_) i in
      if ExtType extended_data =? EVENT_HEADER_EXT_TYPE_CONTAINER_ID then
        container_id_of NDEBUG extended_data
      else GetContainerId_for NDEBUG record_ todo' (S i)
  end.

Definition GetContainerId (NDEBUG : bool) (record_ : EVENT_RECORD)
  : run (managed (option Guid)) :=
  let extended_data_count := ExtendedDataCount record_ in
  GetContainerId_for NDEBUG record_ extended_data_count 0.

(** [item], at index [k], is the first item of the record tagged as a
    container id. *)
Definition first_container_id (record_ : EVENT_RECORD) (k : nat)
    (item : EVENT_HEADER_EXTENDED_DATA_ITEM) : Prop :=
  (k < ExtendedDataCount record_)%nat
  /\ ExtendedData record_ !! k = Some item
  /\ ExtType item = EVENT_HEADER_EXT_TYPE_CONTAINER_ID
  /\ Forall (fun x => ExtType x <> EVENT_HEADER_EXT_TYPE_CONTAINER_ID)
       (take k (ExtendedData record_)).
End GetContainerId.

(** ** What the comments and the specification say about hex digits *)

(** The characters [0-9], [A-F], [a-f]. *)
Definition is_hex_digit (c : ascii) : bool :=
  bool_decide (c ∈ list_ascii_of_string "0123456789ABCDEFabcdef").

(** Index of [c] in [l], if it occurs. *)
Fixpoint index_of (c : ascii) (l : list ascii) : option nat :=
  match l with
  | [] => None
  | x :: l' => if Ascii.eqb c x then Some 0%nat else S <$> index_of c l'
  end.

(** The numeric value of a hex digit (0 for any other character). *)
Definition hex_digit_value (c : ascii) : Z :=
  match index_of c (list_ascii_of_string "0123456789ABCDEF") with
  | Some n => Z.of_nat n
  | None =>
      match index_of c (list_ascii_of_string "0123456789abcdef") with
      | Some n => Z.of_nat n
      | None => 0
      end
  end.

(** The value of a run of hex digits read as one number, most significant
    digit first. *)
Definition hex_number (digits : list ascii) : Z :=
  fold_left (fun acc c => 16 * acc + hex_digit_value c) digits 0.

(** A run of hex digits read two by two, one byte per octet. *)
Fixpoint hex_bytes (digits : list ascii) : list Z :=
  match digits with
  | msd :: lsd :: rest =>
      (16 * hex_digit_value msd + hex_digit_value lsd) :: hex_bytes rest
  | _ => []
  end.

(** The bytes of the octets that decode, among the first [n] octets of
    [str], up to the first octet that does not. *)
Fixpoint leading_octets (n : nat) (str : list ascii) : list Z :=
  match n, str with
  | S n', msd :: lsd :: rest =>
      if is_hex_digit msd && is_hex_digit lsd
      then (16 * hex_digit_value msd + hex_digit_value lsd)
             :: leading_octets n' rest
      else []
  | _, _ => []
  end.

(** ** The canonical text form (8-4-4-4-12) *)

(** The characters at positions [pos, pos + len). *)
Definition field (s : list ascii) (pos len : nat) : list ascii :=
  take len (drop pos s).

Definition is_hyphen_at (s : list ascii) (pos : nat) : bool :=
  match s !! pos with
  | Some c => Ascii.eqb c "-"
  | None => false
  end.

(** Positions 8, 13, 18 and 23 hold ['-']. *)
Definition hyphens_ok (s : list ascii) : bool :=
  is_hyphen_at s 8 && is_hyphen_at s 13 && is_hyphen_at s 18
  && is_hyphen_at s 23.

(** The 32 characters at the other positions. *)
Definition digits (s : list ascii) : list ascii :=
  field s 0 8 ++ field s 9 4 ++ field s 14 4 ++ field s 19 4 ++ field s 24 12.

(** The GUID a canonical text denotes. *)
Definition decode (s : list ascii) : GUID :=
  {| Data1 := hex_number (field s 0 8);
     Data2 := hex_number (field s 9 4);
     Data3 := hex_number (field s 14 4);
     Data4 := hex_bytes (field s 19 4) ++ hex_bytes (field s 24 12) |}.

(** What parse_guid answers on 36 readable characters. *)
Definition parse_spec (s : list ascii) : parsed :=
  if negb (hyphens_ok s) then Throw missing_hyphen
  else if forallb is_hex_digit (digits s) then Ok (decode s)
  else Throw non_hex_digits.

(** A valid canonical string: 36 characters, hyphens at the four fixed
    positions, hex digits everywhere else. *)
Definition canonical (s : list ascii) : bool :=
  bool_decide (length s = 36%nat) && hyphens_ok s
  && forallb is_hex_digit (digits s).

Definition is_hyphen_position (i : nat) : bool :=
  bool_decide (i ∈ [8; 13; 18; 23]%nat).

(** The error taxonomy of the specification. *)
Inductive error_kind : Type := LengthError | FormatError.

Definition kind_of (e : runtime_error) : error_kind :=
  match e with
  | incorrect_length _ _ => LengthError
  | missing_hyphen => FormatError
  | non_hex_digits => FormatError
  end.

(** The values a [GUID] structure can hold: a 32-bit, two 16-bit fields and
    eight bytes. *)
Definition GUID_in_range (g : GUID) : bool :=
  (0 <=? Data1 g) && (Data1 g <? 2 ^ 32)
  && (0 <=? Data2 g) && (Data2 g <? 2 ^ 16)
  && (0 <=? Data3 g) && (Data3 g <? 2 ^ 16)
  && bool_decide (length (Data4 g) = 8%nat)
  && forallb (fun b => (0 <=? b) && (b <? 256)) (Data4 g).

(** ASCII lower case. *)
Definition to_lower (c : ascii) : ascii :=
  if char_in "A" "Z" c then ascii_of_N (N_of_ascii c + 32) else c.

Definition is_hex_letter (c : ascii) : bool :=
  bool_decide (c ∈ list_ascii_of_string "ABCDEFabcdef").

(** Two hex letters that are the same letter, in whatever case. *)
Definition same_letter (c1 c2 : ascii) : bool :=
  is_hex_letter c1 && is_hex_letter c2
  && Ascii.eqb (to_lower c1) (to_lower c2).

(** ** The string conversions the repository leaves to the platform *)

(** Modelled from the spec: the text [to_canonical_string] produces; the
    source's [std::to_wstring] obtains it from StringFromCLSID of the
    Windows API, which is not in the repository. Section 4.1: "produces
    lowercase or platform-canonical hex, hyphens inserted at the four fixed
    offsets"; section 6: [XXXXXXXX-XXXX-XXXX-XXXX-XXXXXXXXXXXX], the first
    three fields written as numbers, the last eight bytes in order.
    [upper] chooses the case of the letters. *)
Definition hex_digit_char (upper : bool) (v : Z) : ascii :=
  nth (Z.to_nat v)
    (list_ascii_of_string
       (if upper then "0123456789ABCDEF" else "0123456789abcdef"))
    "0"%char.

Fixpoint hex_text (upper : bool) (ndigits : nat) (z : Z) : list ascii :=
  match ndigits with
  | O => []
  | S n => hex_text upper n (z / 16) ++ [hex_digit_char upper (z mod 16)]
  end.

Definition to_canonical_string (upper : bool) (g : GUID) : list ascii :=
  hex_text upper 8 (Data1 g) ++ "-"%char
  :: hex_text upper 4 (Data2 g) ++ "-"%char
  :: hex_text upper 4 (Data3 g) ++ "-"%char
  :: flat_map (hex_text upper 2) (take 2 (Data4 g)) ++ "-"%char
  :: flat_map (hex_text upper 2) (drop 2 (Data4 g)).

(** Modelled from the spec: [from_canonical_string], section 4.1: "delegates
    to the Parser component; propagates its error unchanged". The source's
    constructor hands the text to CLSIDFromString of the Windows API. *)
Definition from_canonical_string (text : list ascii) : run parsed :=
  parse_guid text (Z.of_nat (length text)).

(** Modelled from the spec: [from_bytes], with the binary layout of section
    6: "16 bytes, decomposed as 4+2+2+8 with the first three fields in
    platform-native byte order and the last 8 bytes in wire order";
    platform-native is little-endian (section 1). The source's constructor
    [guid::guid(GUID)] receives the structure itself and stores it. *)
Definition little_endian (bytes : list Z) : Z :=
  fold_right (fun b acc => b + 256 * acc) 0 bytes.

Definition from_bytes (v : list Z) : GUID :=
  {| Data1 := little_endian (take 4 v);
     Data2 := little_endian (take 2 (drop 4 v));
     Data3 := little_endian (take 2 (drop 6 v));
     Data4 := drop 8 v |}.

Definition is_byte (b : Z) : bool := (0 <=? b) && (b <? 256).

(** A wide string as narrow characters, when every unit fits one. *)
Fixpoint narrow (ws : list Z) : option (list ascii) :=
  match ws with
  | [] => Some []
  | w :: ws' =>
      if (0 <=? w) && (w <? 256)
      then cons (ascii_of_N (Z.to_N w)) <$> narrow ws'
      else None
  end.

Definition widen (s : list ascii) : list Z :=
  map (fun c => Z.of_N (N_of_ascii c)) s.

(** The HRESULT for a string that is not a GUID (0x800401F3). *)
Definition CO_E_CLASSSTRING : Z := 0x800401F3 - 2 ^ 32.

(** Modelled from the spec: CLSIDFromString of the Windows API, as the
    source uses it: on the null-terminated wide string that holds the 36
    characters between braces (EventRecordMetadata.hpp:180-183). Section 4.3,
    steps 4 and 5: the Parser is invoked on the 36 characters; on parser
    success the decoded identifier is returned, on parser failure an error. *)
Definition CLSIDFromString_spec (lpsz : list Z) : Z * GUID :=
  match wcs lpsz with
  | open :: rest =>
      if (open =? Z.of_N (N_of_ascii "{"))
         && bool_decide (drop 36 rest = [Z.of_N (N_of_ascii "}")])
      then
        match narrow (take 36 rest) with
        | Some text =>
            match parse_guid text 36 with
            | Returns (Ok guid) => (S_OK, guid)
            | _ => (CO_E_CLASSSTRING, GUID_zero)
            end
        | None => (CO_E_CLASSSTRING, GUID_zero)
        end
      else (CO_E_CLASSSTRING, GUID_zero)
  | [] => (CO_E_CLASSSTRING, GUID_zero)
  end.

(** Modelled from the spec: StringFromCLSID of the Windows API: the text of
    [to_canonical_string] between the braces CLSIDFromString takes, as a
    null-terminated wide string. It does not fail. *)
Definition StringFromCLSID_spec (upper : bool) (guid : GUID) : Z * list Z :=
  (S_OK, widen ("{"%char :: to_canonical_string upper guid ++ ["}"%char]) ++ [0]).

(** The tag of a container-id item in evntcons.h. *)
Definition CONTAINER_ID_TAG : Z := 0x0010.

(** ** Case analyses used in the proofs *)

Ltac each_char c :=
  destruct c as [[] [] [] [] [] [] [] []].

(** How the three branches of the source classify a character. *)
Inductive digit_class (c : ascii) : Prop :=
| class_decimal :
    char_in "0" "9" c = true ->
    is_hex_digit c = true ->
    Z.land (int_of_char c) 0x0F = hex_digit_value c ->
    digit_class c
| class_letter :
    char_in "0" "9" c = false ->
    char_in "A" "F" c || char_in "a" "f" c = true ->
    is_hex_digit c = true ->
    Z.land (int_of_char c) 0x0F + 9 = hex_digit_value c ->
    digit_class c
| class_other :
    char_in "0" "9" c = false ->
    char_in "A" "F" c || char_in "a" "f" c = false ->
    is_hex_digit c = false ->
    digit_class c.

Ltac explicit_chars s H :=
  do 36 (destruct s as [|? s]; [simpl in H; lia |]).

Ltac parse_step :=
  cbn zeta;
  cbn [sizeof unsigned_long unsigned_short Nat.mul Nat.add take];
  match goal with
  | |- context [forallb is_hex_digit ?l && _] =>
      destruct (forallb is_hex_digit l);
      cbn [run_bind andb negb Data1 Data2 Data3 Data4]; [| reflexivity]
  end.

Ltac each_position i Hi :=
  let Hin := fresh "Hin" in
  assert (Hin : In i (seq 0 36)) by (apply in_seq; lia);
  clear Hi; cbn [seq] in Hin;
  repeat (destruct Hin as [<- | Hin]); [.. | contradiction].

Ltac split_canonical H :=
  unfold canonical, hyphens_ok, is_hyphen_at, digits, field in H;
  cbn [lookup list_lookup take drop app forallb] in H;
  repeat (apply andb_prop in H; let H' := fresh "Hc" in destruct H as [H H']).

(** ** Letter case *)

(** [c1] and [c2] are the same character, or the same hex letter in
    different case. *)
Definition case_variant (c1 c2 : ascii) : Prop :=
  c1 = c2 \/ same_letter c1 c2 = true.

(** ** The extractor's buffer, and sample records *)

(** [(wchar_t)ch] for a [char]. *)
Definition wchar_of_char (ch : ascii) : Z := static_cast wchar_t (int_of_char ch).

(** The local buffer once the payload is copied: the first 36 bytes of the
    payload between the braces, and the terminator. *)
Definition braced (data : list ascii) : list Z :=
  wide "{" ++ map wchar_of_char (take 36 data) ++ wide "}" ++ [0].

Definition other_item : EVENT_HEADER_EXTENDED_DATA_ITEM :=
  {| ExtType := 1; DataSize := 16; DataPtr := [] |}.

Definition container_item (size : Z) (text : string)
  : EVENT_HEADER_EXTENDED_DATA_ITEM :=
  {| ExtType := CONTAINER_ID_TAG; DataSize := size;
     DataPtr := list_ascii_of_string text |}.

Definition last_byte (b : Z) : GUID :=
  {| Data1 := 0; Data2 := 0; Data3 := 0; Data4 := [0; 0; 0; 0; 0; 0; 0; b] |}.

Definition record_without : EVENT_RECORD :=
  {| ExtendedDataCount := 2; ExtendedData := [other_item; other_item] |}.

Definition record_with_two : EVENT_RECORD :=
  {| ExtendedDataCount := 3;
     ExtendedData :=
       [ other_item;
         container_item 36 "00000000-0000-0000-0000-000000000001";
         container_item 36 "00000000-0000-0000-0000-000000000002" ] |}.

Definition record_short : EVENT_RECORD :=
  {| ExtendedDataCount := 2;
     ExtendedData :=
       [ other_item;
         container_item 35 "00000000-0000-0000-0000-00000000001" ] |}.

Definition record_long : EVENT_RECORD :=
  {| ExtendedDataCount := 1;
     ExtendedData :=
       [ container_item 37 "00000000-0000-0000-0000-000000000001!" ] |}.

Definition no_nul (l : list ascii) : bool :=
  forallb (fun c => negb (Ascii.eqb c "000")) l.

Ltac explicit_bytes g H :=
  destruct g as [d1 d2 d3 bs]; cbn [Data1 Data2 Data3 Data4] in H;
  do 8 (destruct bs as [|? bs]; [discriminate H |]);
  destruct bs; [| discriminate H].

(** ** guid::operator== and guid::operator< (guid.hpp:124-142) *)

(** [memcmp] of the C library, up to the sign of its result: the first
    [count] bytes are compared as unsigned values, in order. *)
Fixpoint memcmp (lhs rhs : list Z) (count : nat) {struct count} : run Z :=
  match count with
  | O => Returns 0
  | S count' =>
      match lhs, rhs with
      | a :: lhs', b :: rhs' =>
          if a <? b then Returns (-1)
          else if b <? a then Returns 1
          else memcmp lhs' rhs' count'
      | _, _ => OutOfBounds
      end
  end.

(** Byte [i] of an unsigned integer, least significant first. *)
Definition byte_of (z : Z) (i : nat) : Z := (z / 256 ^ Z.of_nat i) mod 256.

(** The bytes of a [T] in memory. Windows runs little-endian. *)
Definition bytes_of_uint (T : uint_type) (z : Z) : list Z :=
  map (byte_of z) (seq 0 (sizeof T)).

(** The 16 bytes of a [GUID] in memory: the fields in declaration order,
    without padding. *)
Definition object_representation (g : GUID) : list Z :=
  bytes_of_uint unsigned_long (Data1 g)
  ++ bytes_of_uint unsigned_short (Data2 g)
  ++ bytes_of_uint unsigned_short (Data3 g)
  ++ Data4 g.

Definition sizeof_GUID : nat := 16.

(** [0 == memcmp(&guid_, &rhs, sizeof(GUID))]; the overloads for
    [const guid&] and [const GUID&] compare the same bytes. *)
Definition operator_eq (guid_ rhs : GUID) : run bool :=
  let* r := memcmp (object_representation guid_) (object_representation rhs)
              sizeof_GUID in
  Returns (0 =? r).

(** [memcmp(&guid_, &rhs, sizeof(guid_)) < 0] *)
Definition operator_lt (guid_ rhs : GUID) : run bool :=
  let* r := memcmp (object_representation guid_) (object_representation rhs)
              sizeof_GUID in
  Returns (r <? 0).

(** * Properties *)

(** ** The octet decoder, as an equation *)

Lemma hex_digit_value_range c : 0 <= hex_digit_value c < 16.
Proof. each_char c; vm_compute; split; congruence. Qed.

Lemma classify c : digit_class c.
Proof.
  each_char c;
    first [ by apply class_decimal; vm_compute
          | by apply class_letter; vm_compute
          | by apply class_other; vm_compute ].
Qed.

Lemma lor_nibbles x y :
  0 <= x < 16 -> 0 <= y < 16 -> Z.lor (Z.lor 0 (Z.shiftl x 4)) y = 16 * x + y.
Proof.
  intros Hx Hy.
  rewrite Z.lor_0_l, Z.shiftl_mul_pow2 by lia.
  rewrite <- Z.lxor_lor, <- Z.add_nocarry_lxor; try lia.
  all: apply Z.bits_inj'; intros n Hn; rewrite Z.land_spec, Z.bits_0;
    destruct (Z.lt_ge_cases n 4) as [Hlt | Hge].
  all: try (rewrite (Z.mul_pow2_bits_low x 4 n) by lia; reflexivity).
  all: rewrite (Z.bits_above_log2 y n), andb_false_r; try reflexivity; try lia.
  all: destruct (Z.eq_dec y 0) as [-> | Hy0]; [simpl; lia |];
    apply Z.log2_lt_pow2; try lia;
    apply Z.lt_le_trans with (2 ^ 4); [lia | apply Z.pow_le_mono_r; lia].
Qed.

Lemma hex_octet_lsd_eq lsd x byte_output :
  0 <= x < 16 ->
  hex_octet_lsd lsd (Z.lor 0 (Z.shiftl x 4)) byte_output =
  Returns (if is_hex_digit lsd
           then (true, 16 * x + hex_digit_value lsd)
           else (false, byte_output)).
Proof.
  intros Hx. unfold hex_octet_lsd.
  pose proof (hex_digit_value_range lsd) as Hr.
  destruct (classify lsd) as [-> -> E | -> -> -> E | -> -> ->]; [| | done].
  all: rewrite E, lor_nibbles by lia.
  all: unfold UCHAR_MAX, static_cast;
    change (2 ^ bit_width unsigned_char) with 256.
  all: rewrite Z.mod_small by lia.
  all: destruct (0 <=? _) eqn:?, (_ <=? 255) eqn:?; try lia; done.
Qed.

(** The octet decoder as an equation: it returns for every buffer holding
    two characters, whatever follows them. *)
Lemma hex_octet_to_byte_eq msd lsd rest byte_output :
  hex_octet_to_byte (msd :: lsd :: rest) byte_output =
  Returns (if is_hex_digit msd && is_hex_digit lsd
           then (true, 16 * hex_digit_value msd + hex_digit_value lsd)
           else (false, byte_output)).
Proof.
  unfold hex_octet_to_byte. cbn [read lookup list_lookup run_bind].
  pose proof (hex_digit_value_range msd) as Hr.
  destruct (classify msd) as [-> -> E | -> -> -> E | -> -> ->]; [| | done].
  all: rewrite E, hex_octet_lsd_eq by lia; done.
Qed.

(** ** Sample runs of the parser *)

Example parse_zero :
  parse_guid (list_ascii_of_string "00000000-0000-0000-0000-000000000000") 36
  = Returns (Ok GUID_zero).
Proof. vm_compute. reflexivity. Qed.

Example parse_sample :
  parse_guid (list_ascii_of_string "01234567-89aB-cDeF-fedc-BA9876543210") 36
  = Returns (Ok {| Data1 := 0x01234567; Data2 := 0x89AB; Data3 := 0xCDEF;
                   Data4 := [0xFE; 0xDC; 0xBA; 0x98; 0x76; 0x54; 0x32; 0x10] |}).
Proof. vm_compute. reflexivity. Qed.

Example parse_bad :
  parse_guid (list_ascii_of_string "01234567-89aB-cDeF-fedc-BA987654321g") 36
  = Returns (Throw non_hex_digits).
Proof. vm_compute. reflexivity. Qed.

(** ** The two loops *)

Lemma lor_shiftl_byte v b :
  0 <= b < 256 -> Z.lor (Z.shiftl v 8) b = v * 256 + b.
Proof.
  intros Hb. rewrite Z.shiftl_mul_pow2 by lia.
  change (2 ^ 8) with 256.
  rewrite <- Z.lxor_lor, <- Z.add_nocarry_lxor; try lia.
  all: apply Z.bits_inj'; intros n Hn; rewrite Z.land_spec, Z.bits_0;
    destruct (Z.lt_ge_cases n 8) as [Hlt | Hge].
  all: try (change 256 with (2 ^ 8);
            rewrite (Z.mul_pow2_bits_low v 8 n) by lia; reflexivity).
  all: rewrite (Z.bits_above_log2 b n), andb_false_r; try reflexivity; try lia.
  all: destruct (Z.eq_dec b 0) as [-> | Hb0]; [simpl; lia |];
    apply Z.log2_lt_pow2; try lia;
    apply Z.lt_le_trans with (2 ^ 8); [lia | apply Z.pow_le_mono_r; lia].
Qed.

Lemma pow2_bit_width T : 2 ^ bit_width T = 256 ^ Z.of_nat (sizeof T).
Proof.
  unfold bit_width. rewrite Z.pow_mul_r by lia. reflexivity.
Qed.

Lemma drop_two_more {A} (l : list A) i a b rest :
  drop (i * 2) l = a :: b :: rest -> drop (S i * 2) l = rest.
Proof.
  intros E. replace (S i * 2)%nat with (i * 2 + 2)%nat by lia.
  rewrite <- drop_drop, E. reflexivity.
Qed.

Lemma drop_two_chars {A} (l : list A) i k :
  (2 * (i + S k) <= length l)%nat ->
  exists a b rest, drop (i * 2) l = a :: b :: rest
                   /\ (2 * k <= length rest)%nat.
Proof.
  intros H.
  assert (Hl : (2 + 2 * k <= length (drop (i * 2) l))%nat)
    by (rewrite length_drop; lia).
  destruct (drop (i * 2) l) as [|a [|b rest]]; simpl in Hl; try lia.
  exists a, b, rest. split; [reflexivity | lia].
Qed.

Lemma hex_string_to_number_for_eq T str todo :
  forall i value byte,
    (i + todo <= sizeof T)%nat ->
    (2 * (i + todo) <= length str)%nat ->
    0 <= value < 256 ^ Z.of_nat i ->
    hex_string_to_number_for T str todo i value byte =
    Returns
      (let ds := take (2 * todo) (drop (i * 2) str) in
       if forallb is_hex_digit ds
       then Some (fold_left (fun acc c => 16 * acc + hex_digit_value c) ds value)
       else None).
Proof.
  induction todo as [|todo IH]; intros i value byte Hsz Hlen Hv.
  - reflexivity.
  - destruct (drop_two_chars str i todo Hlen) as (a & b & rest & E & Hrest).
    cbn [hex_string_to_number_for]. rewrite E, hex_octet_to_byte_eq.
    replace (2 * S todo)%nat with (S (S (2 * todo))) by lia.
    cbn [take forallb fold_left run_bind].
    pose proof (hex_digit_value_range a) as Ha.
    pose proof (hex_digit_value_range b) as Hb.
    destruct (is_hex_digit a); [| reflexivity].
    destruct (is_hex_digit b); [| reflexivity].
    cbn [andb negb].
    assert (Hpow : 256 ^ Z.of_nat (S i) <= 2 ^ bit_width T).
    { rewrite pow2_bit_width. apply Z.pow_le_mono_r; lia. }
    assert (HS : 256 ^ Z.of_nat (S i) = 256 * 256 ^ Z.of_nat i).
    { rewrite Nat2Z.inj_succ, Z.pow_succ_r by lia. reflexivity. }
    assert (H1 : 256 <= 256 ^ Z.of_nat (S i)).
    { rewrite HS. assert (0 < 256 ^ Z.of_nat i) by (apply Z.pow_pos_nonneg; lia).
      lia. }
    unfold static_cast.
    rewrite (Z.mod_small (16 * _ + _)) by lia.
    rewrite lor_shiftl_byte by lia.
    rewrite Z.mod_small by lia.
    rewrite IH; try lia.
    rewrite (drop_two_more _ _ _ _ _ E).
    replace (value * 256 + (16 * hex_digit_value a + hex_digit_value b))
      with (16 * (16 * value + hex_digit_value a) + hex_digit_value b) by lia.
    reflexivity.
Qed.

Lemma hex_string_to_number_eq T str int_output :
  (2 * sizeof T <= length str)%nat ->
  hex_string_to_number T str int_output =
  Returns
    (let ds := take (2 * sizeof T) str in
     if forallb is_hex_digit ds then (true, hex_number ds)
     else (false, int_output)).
Proof.
  intros Hlen. unfold hex_string_to_number.
  rewrite hex_string_to_number_for_eq; [| lia | lia | simpl; lia].
  cbn [run_bind drop Nat.mul]. unfold hex_number.
  destruct (forallb _ _); reflexivity.
Qed.

Lemma hex_string_to_bytes_for_eq str todo :
  forall i (out : list Z),
    (2 * (i + todo) <= length str)%nat ->
    (i + todo <= length out)%nat ->
    hex_string_to_bytes_for str out todo i =
    Returns
      (let good := leading_octets todo (drop (i * 2) str) in
       (bool_decide (length good = todo),
        take i out ++ good ++ drop (i + length good) out)).
Proof.
  induction todo as [|todo IH]; intros i out Hlen Hout.
  - cbn. rewrite Nat.add_0_r, take_drop. reflexivity.
  - destruct (drop_two_chars str i todo Hlen) as (a & b & rest & E & Hrest).
    destruct (lookup_lt_is_Some_2 out i) as [cell Hcell]; [lia |].
    cbn [hex_string_to_bytes_for]. unfold read at 1. rewrite Hcell.
    cbn [run_bind]. rewrite E, hex_octet_to_byte_eq.
    cbn [leading_octets run_bind].
    destruct (is_hex_digit a && is_hex_digit b); cbn [negb].
    + rewrite IH; [| lia | rewrite length_insert; lia].
      rewrite (drop_two_more _ _ _ _ _ E). cbn zeta. f_equal. f_equal.
      * cbn [length]. apply bool_decide_ext. lia.
      * rewrite take_insert_lt by lia. rewrite (take_S_r _ _ cell) by done.
        rewrite insert_app_r_alt by (rewrite length_take; lia).
        rewrite length_take, Nat.min_l by lia.
        replace (i - i)%nat with 0%nat by lia. cbn [insert list_insert].
        rewrite <- app_assoc. cbn [app length]. f_equal. f_equal. f_equal.
        rewrite drop_insert_lt by lia. f_equal. lia.
    + cbn [length app]. rewrite list_insert_id by done.
      rewrite Nat.add_0_r, take_drop. reflexivity.
Qed.

Lemma leading_octets_all n :
  forall str,
    (2 * n <= length str)%nat ->
    let ds := take (2 * n) str in
    bool_decide (length (leading_octets n str) = n) = forallb is_hex_digit ds
    /\ (forallb is_hex_digit ds = true -> leading_octets n str = hex_bytes ds).
Proof.
  induction n as [|n IH]; intros str Hlen.
  - cbn. split; [reflexivity |]. destruct str; reflexivity.
  - destruct str as [|a [|b rest]]; simpl in Hlen; try lia.
    replace (2 * S n)%nat with (S (S (2 * n))) by lia.
    cbn [take forallb leading_octets hex_bytes].
    destruct (IH rest) as [IH1 IH2]; [lia |]. cbn zeta in IH1, IH2.
    destruct (is_hex_digit a); [| split; [reflexivity | discriminate]].
    destruct (is_hex_digit b); [| split; [reflexivity | discriminate]].
    cbn [andb length]. rewrite <- IH1. split.
    + apply bool_decide_ext. lia.
    + intros H. rewrite IH2; [reflexivity |]. rewrite <- IH1. exact H.
Qed.

Lemma hex_string_to_bytes_eq str out byte_count :
  (2 * byte_count <= length str)%nat ->
  (byte_count <= length out)%nat ->
  hex_string_to_bytes str out byte_count =
  Returns
    (let good := leading_octets byte_count str in
     (bool_decide (length good = byte_count),
      good ++ drop (length good) out)).
Proof.
  intros Hs Ho. unfold hex_string_to_bytes.
  rewrite hex_string_to_bytes_for_eq by lia. reflexivity.
Qed.

Lemma hex_string_to_bytes_all str out byte_count :
  (2 * byte_count <= length str)%nat ->
  (byte_count <= length out)%nat ->
  hex_string_to_bytes str out byte_count =
  Returns
    (let ds := take (2 * byte_count) str in
     if forallb is_hex_digit ds
     then (true, hex_bytes ds ++ drop byte_count out)
     else (false, leading_octets byte_count str
                    ++ drop (length (leading_octets byte_count str)) out)).
Proof.
  intros Hs Ho. rewrite hex_string_to_bytes_eq by lia. cbn zeta.
  destruct (leading_octets_all byte_count str Hs) as [H1 H2].
  cbn zeta in H1, H2. rewrite H1.
  destruct (forallb _ _) eqn:E; [| reflexivity].
  apply bool_decide_eq_true in H1. rewrite H1, H2 by reflexivity. reflexivity.
Qed.

Lemma delimiter_test c : (int_of_char c =? DELIMITER) = Ascii.eqb c "-".
Proof. each_char c; reflexivity. Qed.

Lemma parse_guid_eq s :
  (36 <= length s)%nat -> parse_guid s 36 = Returns (parse_spec s).
Proof.
  intros H. explicit_chars s H. clear H.
  unfold parse_guid, parse_spec, hyphens_ok, is_hyphen_at, digits, decode, field.
  change (negb (36 =? UUID_STRING_LENGTH)) with false. cbv iota.
  rewrite !forallb_app.
  unfold not_delimiter, or_else, STR_POSITION_DATA4_PART2,
    STR_POSITION_DATA4_PART1, STR_POSITION_DATA3, STR_POSITION_DATA2,
    STR_POSITION_DATA1.
  cbn [Nat.add Nat.sub read lookup list_lookup run_bind drop take].
  rewrite !delimiter_test.
  repeat match goal with
         | |- context [Ascii.eqb ?c "-"] =>
             destruct (Ascii.eqb c "-"); cbn [negb run_bind andb];
             [| reflexivity]
         end.
  unfold and_then.
  rewrite hex_string_to_number_eq by (simpl; lia). parse_step.
  rewrite hex_string_to_number_eq by (simpl; lia). parse_step.
  rewrite hex_string_to_number_eq by (simpl; lia). parse_step.
  rewrite take_0.
  rewrite hex_string_to_bytes_all by (simpl; lia). parse_step.
  cbn [GUID_zero Data4 replicate drop take app hex_bytes].
  rewrite hex_string_to_bytes_all by (simpl; lia). 
  cbn zeta. cbn [Nat.mul Nat.add take].
  destruct (forallb is_hex_digit _); reflexivity.
Qed.

(** ** Bounds on decoded values *)

Lemma hex_fold_bound ds :
  forall acc,
    0 <= acc ->
    0 <= fold_left (fun acc c => 16 * acc + hex_digit_value c) ds acc
      < (acc + 1) * 16 ^ Z.of_nat (length ds).
Proof.
  induction ds as [|c ds IH]; intros acc Hacc.
  - cbn. lia.
  - pose proof (hex_digit_value_range c) as Hc.
    cbn [fold_left length].
    specialize (IH (16 * acc + hex_digit_value c) ltac:(lia)).
    rewrite Nat2Z.inj_succ, Z.pow_succ_r by lia.
    assert (0 < 16 ^ Z.of_nat (length ds)) by (apply Z.pow_pos_nonneg; lia).
    nia.
Qed.

Lemma hex_number_bound ds :
  0 <= hex_number ds < 16 ^ Z.of_nat (length ds).
Proof.
  unfold hex_number. pose proof (hex_fold_bound ds 0 ltac:(lia)). lia.
Qed.

Lemma hex_bytes_bound ds :
  forallb (fun b => (0 <=? b) && (b <? 256)) (hex_bytes ds) = true.
Proof.
  induction ds as [ds IH] using (induction_ltof1 _ (@length ascii)).
  destruct ds as [|a [|b ds]]; try reflexivity.
  cbn [hex_bytes forallb].
  pose proof (hex_digit_value_range a). pose proof (hex_digit_value_range b).
  rewrite IH by (unfold ltof; simpl; lia).
  rewrite andb_true_r. apply andb_true_intro. split.
  - apply Z.leb_le. lia.
  - apply Z.ltb_lt. lia.
Qed.

(** ** The claims about the parser *)

(** C7. For any two characters (and whatever follows them in memory),
    hex_octet_to_byte returns success exactly when both characters are among
    0-9, A-F, a-f; the byte it then stores is 16 times the hex value of the
    first character plus the hex value of the second, and on failure the
    output keeps its value. The call reads the two characters only: a buffer
    of exactly two characters is enough, and the result is the same whatever
    lies behind them. *)
Theorem hex_octet_to_byte_correct (c1 c2 : ascii) (rest : list ascii)
    (byte_output : Z) :
  hex_octet_to_byte [c1; c2] byte_output =
    Returns (if is_hex_digit c1 && is_hex_digit c2
             then (true, 16 * hex_digit_value c1 + hex_digit_value c2)
             else (false, byte_output))
  /\ hex_octet_to_byte (c1 :: c2 :: rest) byte_output =
     hex_octet_to_byte [c1; c2] byte_output
  /\ 0 <= 16 * hex_digit_value c1 + hex_digit_value c2 <= UCHAR_MAX.
Proof.
  rewrite !hex_octet_to_byte_eq. repeat split.
  all: pose proof (hex_digit_value_range c1);
    pose proof (hex_digit_value_range c2); unfold UCHAR_MAX; lia.
Qed.

(** C10. When hex_octet_to_byte or hex_string_to_number returns false, the
    value handed back in the output reference is the value it held before the
    call. *)
Theorem failure_leaves_output_unchanged (T : uint_type) (str : list ascii)
    (before after : Z) :
  (hex_octet_to_byte str before = Returns (false, after) -> after = before)
  /\ (hex_string_to_number T str before = Returns (false, after) ->
      after = before).
Proof.
  split.
  - destruct str as [|a [|b rest]]; try discriminate.
    rewrite hex_octet_to_byte_eq.
    destruct (is_hex_digit a && is_hex_digit b); congruence.
  - unfold hex_string_to_number.
    destruct (hex_string_to_number_for T str (sizeof T) 0 0 0) as [[v|] | |];
      cbn [run_bind]; congruence.
Qed.

Lemma failure_leaves_output_unchanged_witness :
  (hex_octet_to_byte (list_ascii_of_string "4g") 7 = Returns (false, 7)
   /\ hex_string_to_number unsigned_short (list_ascii_of_string "12x4") 9
      = Returns (false, 9))
  /\ 7 = 7 /\ 9 = 9.
Proof.
  split; [split; reflexivity |].
  split.
  - apply (proj1 (failure_leaves_output_unchanged unsigned_short
                    (list_ascii_of_string "4g") 7 7)).
    reflexivity.
  - apply (proj2 (failure_leaves_output_unchanged unsigned_short
                    (list_ascii_of_string "12x4") 9 9)).
    reflexivity.
Defined.

(** C3. Whatever the buffer holds (even nothing), a length argument other
    than 36 makes parse_guid throw the incorrect-length error, which is a
    length error. *)
Theorem parse_guid_rejects_length (str : list ascii) (length : Z) :
  length <> 36 ->
  parse_guid str length = Returns (Throw (incorrect_length 36 length))
  /\ kind_of (incorrect_length 36 length) = LengthError.
Proof.
  intros Hne. split; [| reflexivity].
  unfold parse_guid, UUID_STRING_LENGTH.
  destruct (Z.eqb_spec length 36) as [-> | _]; [contradiction | reflexivity].
Qed.

Lemma parse_guid_rejects_length_witness :
  35 <> 36
  /\ parse_guid (list_ascii_of_string "00000000-0000-0000-0000-00000000000") 35
     = Returns (Throw (incorrect_length 36 35))
  /\ kind_of (incorrect_length 36 35) = LengthError.
Proof.
  split; [lia |].
  apply (parse_guid_rejects_length
           (list_ascii_of_string "00000000-0000-0000-0000-00000000000") 35).
  lia.
Defined.

(** C1. On a 36-character input with '-' at positions 8, 13, 18 and 23 and
    hex digits at all other positions, parse_guid returns the GUID whose
    Data1 is the number written by the 8 digits at [0,8), most significant
    digit first (a 32-bit value), whose Data2 and Data3 are the numbers
    written by the digits at [9,13) and [14,18) (16-bit values), and whose
    Data4 is the two bytes decoded from [19,23) followed by the six bytes
    decoded from [24,36). *)
Theorem parse_guid_decodes (s : list ascii) :
  length s = 36%nat ->
  hyphens_ok s = true ->
  forallb is_hex_digit (digits s) = true ->
  parse_guid s 36 =
    Returns (Ok {| Data1 := hex_number (field s 0 8);
                   Data2 := hex_number (field s 9 4);
                   Data3 := hex_number (field s 14 4);
                   Data4 := hex_bytes (field s 19 4)
                              ++ hex_bytes (field s 24 12) |})
  /\ 0 <= hex_number (field s 0 8) < 2 ^ 32
  /\ 0 <= hex_number (field s 9 4) < 2 ^ 16
  /\ 0 <= hex_number (field s 14 4) < 2 ^ 16
  /\ length (hex_bytes (field s 19 4)) = 2%nat
  /\ length (hex_bytes (field s 24 12)) = 6%nat.
Proof.
  intros Hlen Hhy Hhex. split.
  - rewrite parse_guid_eq by lia. unfold parse_spec.
    rewrite Hhy, Hhex. reflexivity.
  - pose proof (hex_number_bound (field s 0 8)) as H1.
    pose proof (hex_number_bound (field s 9 4)) as H2.
    pose proof (hex_number_bound (field s 14 4)) as H3.
    unfold field in H1, H2, H3.
    rewrite length_take, length_drop, Hlen in H1, H2, H3.
    change (2 ^ 32) with (16 ^ Z.of_nat (8 `min` (36 - 0))).
    change (2 ^ 16) with (16 ^ Z.of_nat (4 `min` (36 - 9))).
    repeat split; try apply H1; try apply H2; try apply H3.
    all: explicit_chars s Hlen; reflexivity.
Qed.

Lemma parse_guid_decodes_witness :
  parse_guid (list_ascii_of_string "01234567-89aB-cDeF-fedc-BA9876543210") 36
  = Returns (Ok {| Data1 := 0x01234567; Data2 := 0x89AB; Data3 := 0xCDEF;
                   Data4 := [0xFE; 0xDC; 0xBA; 0x98; 0x76; 0x54; 0x32; 0x10] |}).
Proof.
  exact (proj1 (parse_guid_decodes
                  (list_ascii_of_string "01234567-89aB-cDeF-fedc-BA9876543210")
                  eq_refl eq_refl eq_refl)).
Defined.

(** C6 (as the code has it). When some octet among the [byte_count] read
    holds a character that is not a hex digit, hex_string_to_bytes returns
    false; the bytes of the octets before the first such octet have been
    stored at the start of the output buffer, and the buffer keeps its
    previous contents from the position of the failing octet on. *)
Theorem hex_string_to_bytes_failure (str : list ascii) (out : list Z)
    (byte_count : nat) :
  (2 * byte_count <= length str)%nat ->
  (byte_count <= length out)%nat ->
  forallb is_hex_digit (take (2 * byte_count) str) = false ->
  let good := leading_octets byte_count str in
  hex_string_to_bytes str out byte_count =
    Returns (false, good ++ drop (length good) out)
  /\ (length good < byte_count)%nat
  /\ good = hex_bytes (take (2 * length good) str).
Proof.
  intros Hs Ho Hbad good.
  rewrite hex_string_to_bytes_all by lia. cbn zeta. rewrite Hbad.
  split; [reflexivity |].
  destruct (leading_octets_all byte_count str Hs) as [H1 _]. cbn zeta in H1.
  rewrite Hbad in H1. apply bool_decide_eq_false in H1.
  subst good. clear Hbad Ho. split.
  - revert str Hs H1. induction byte_count as [|n IH]; intros str Hs H1.
    + destruct str; cbn in H1; lia.
    + destruct str as [|a [|b rest]]; simpl in Hs; try lia.
      cbn [leading_octets] in *.
      destruct (is_hex_digit a && is_hex_digit b); cbn [length] in *; [| lia].
      specialize (IH rest ltac:(lia) ltac:(lia)). lia.
  - clear H1. revert str Hs. induction byte_count as [|n IH]; intros str Hs.
    + destruct str as [|? [|? ?]]; reflexivity.
    + destruct str as [|a [|b rest]]; simpl in Hs; try lia.
      cbn [leading_octets].
      destruct (is_hex_digit a && is_hex_digit b); [| reflexivity].
      cbn [length]. replace (2 * S (length (leading_octets n rest)))%nat
        with (S (S (2 * length (leading_octets n rest)))) by lia.
      cbn [take hex_bytes]. f_equal. apply IH. lia.
Qed.

Lemma hex_string_to_bytes_failure_witness :
  hex_string_to_bytes (list_ascii_of_string "1f2gcc") [0xAA; 0xBB; 0xCC] 3
  = Returns (false, [0x1F; 0xBB; 0xCC]).
Proof.
  exact (proj1 (hex_string_to_bytes_failure (list_ascii_of_string "1f2gcc")
                  [0xAA; 0xBB; 0xCC] 3 ltac:(simpl; lia) ltac:(simpl; lia)
                  eq_refl)).
Defined.

(** C6 as stated fails: after a failing call the output buffer is not what
    it was; the byte of the first, valid, octet has been written. *)
Lemma hex_string_to_bytes_partial_output :
  hex_string_to_bytes (list_ascii_of_string "1f2g") [0xAA; 0xBB] 2
    = Returns (false, [0x1F; 0xBB])
  /\ [0x1F; 0xBB] <> [0xAA; 0xBB].
Proof. split; [reflexivity | discriminate]. Qed.

Lemma hyphen_not_hex : is_hex_digit "-" = false.
Proof. reflexivity. Qed.

(** C4. Take a valid canonical string. Putting any character other than '-'
    at one of the positions 8, 13, 18, 23 makes parse_guid throw the
    missing-hyphen error; putting '-' at any other position makes it throw
    the non-hex-digit error. Both are format errors. *)
Theorem parse_guid_rejects_displaced_delimiter (s : list ascii) (i : nat)
    (c : ascii) :
  canonical s = true ->
  (i < 36)%nat ->
  (is_hyphen_position i = true -> c <> "-"%char ->
   parse_guid (<[i:=c]> s) 36 = Returns (Throw missing_hyphen))
  /\ (is_hyphen_position i = false ->
      parse_guid (<[i:="-"%char]> s) 36 = Returns (Throw non_hex_digits))
  /\ kind_of missing_hyphen = FormatError
  /\ kind_of non_hex_digits = FormatError.
Proof.
  intros Hcan Hi.
  assert (Hlen : length s = 36%nat).
  { unfold canonical in Hcan. apply andb_prop in Hcan as [Hcan _].
    apply andb_prop in Hcan as [Hcan _]. by apply bool_decide_eq_true in Hcan. }
  split; [| split; [| split; reflexivity]].
  - intros Hpos Hc. apply Ascii.eqb_neq in Hc.
    rewrite parse_guid_eq by (rewrite length_insert; lia).
    explicit_chars s Hlen.
    each_position i Hi; try discriminate Hpos.
    all: unfold parse_spec, hyphens_ok, is_hyphen_at;
      cbn [insert list_insert lookup list_lookup]; rewrite Hc;
      rewrite ?andb_false_r; reflexivity.
  - intros Hpos.
    rewrite parse_guid_eq by (rewrite length_insert; lia).
    explicit_chars s Hlen. destruct s; [| discriminate].
    split_canonical Hcan.
    each_position i Hi; try discriminate Hpos.
    all: unfold parse_spec, hyphens_ok, is_hyphen_at, digits, field;
      cbn [insert list_insert lookup list_lookup take drop app forallb].
    all: rewrite Hc0, hyphen_not_hex; cbn [negb andb];
      rewrite ?andb_false_r; reflexivity.
Qed.

Lemma parse_guid_rejects_displaced_delimiter_witness :
  parse_guid
    (<[13%nat:="0"%char]>
       (list_ascii_of_string "01234567-89aB-cDeF-fedc-BA9876543210")) 36
  = Returns (Throw missing_hyphen)
  /\ parse_guid
       (<[35%nat:="-"%char]>
          (list_ascii_of_string "01234567-89aB-cDeF-fedc-BA9876543210")) 36
     = Returns (Throw non_hex_digits).
Proof.
  split.
  - apply (proj1 (parse_guid_rejects_displaced_delimiter
                    (list_ascii_of_string "01234567-89aB-cDeF-fedc-BA9876543210")
                    13 "0"%char eq_refl ltac:(lia))).
    + reflexivity.
    + discriminate.
  - apply (proj1 (proj2 (parse_guid_rejects_displaced_delimiter
                    (list_ascii_of_string "01234567-89aB-cDeF-fedc-BA9876543210")
                    35 "0"%char eq_refl ltac:(lia)))).
    reflexivity.
Defined.

Lemma same_letter_facts c1 c2 :
  same_letter c1 c2 = true ->
  is_hex_digit c1 = is_hex_digit c2
  /\ hex_digit_value c1 = hex_digit_value c2
  /\ Ascii.eqb c1 "-" = Ascii.eqb c2 "-".
Proof.
  unfold same_letter. intros H.
  destruct (is_hex_letter c1) eqn:E1; [| discriminate].
  destruct (is_hex_letter c2) eqn:E2; [| discriminate].
  cbn [andb] in H.
  each_char c1; vm_compute in E1; try discriminate E1; clear E1.
  all: each_char c2; vm_compute in E2; try discriminate E2; clear E2.
  all: vm_compute in H; try discriminate H; clear H.
  all: vm_compute; repeat split.
Qed.

Lemma case_variant_facts c1 c2 :
  case_variant c1 c2 ->
  is_hex_digit c1 = is_hex_digit c2
  /\ hex_digit_value c1 = hex_digit_value c2
  /\ Ascii.eqb c1 "-" = Ascii.eqb c2 "-".
Proof.
  intros [-> | H]; [repeat split | by apply same_letter_facts].
Qed.

Lemma case_variant_all_hex l1 l2 :
  Forall2 case_variant l1 l2 ->
  forallb is_hex_digit l1 = forallb is_hex_digit l2.
Proof.
  induction 1 as [|c1 c2 k1 k2 Hc _ IH]; [reflexivity |].
  cbn [forallb]. destruct (case_variant_facts _ _ Hc) as (E & _ & _).
  by rewrite E, IH.
Qed.

Lemma case_variant_fold l1 l2 :
  Forall2 case_variant l1 l2 ->
  forall acc,
    fold_left (fun acc c => 16 * acc + hex_digit_value c) l1 acc =
    fold_left (fun acc c => 16 * acc + hex_digit_value c) l2 acc.
Proof.
  induction 1 as [|c1 c2 k1 k2 Hc _ IH]; [reflexivity |].
  intros acc. cbn [fold_left].
  destruct (case_variant_facts _ _ Hc) as (_ & E & _). rewrite E. apply IH.
Qed.

Lemma case_variant_bytes l1 l2 :
  Forall2 case_variant l1 l2 -> hex_bytes l1 = hex_bytes l2.
Proof.
  revert l2.
  induction l1 as [l1 IH] using (induction_ltof1 _ (@length ascii)).
  intros l2 H.
  destruct H as [|a1 a2 k1 k2 Ha H]; [reflexivity |].
  destruct H as [|b1 b2 k1 k2 Hb H]; [reflexivity |].
  cbn [hex_bytes].
  destruct (case_variant_facts _ _ Ha) as (_ & -> & _).
  destruct (case_variant_facts _ _ Hb) as (_ & -> & _).
  f_equal. apply IH; [unfold ltof; simpl; lia | exact H].
Qed.

Lemma case_variant_field l1 l2 pos len :
  Forall2 case_variant l1 l2 ->
  Forall2 case_variant (field l1 pos len) (field l2 pos len).
Proof. intros H. unfold field. by apply Forall2_take, Forall2_drop. Qed.

Lemma case_variant_hyphen l1 l2 pos :
  Forall2 case_variant l1 l2 -> is_hyphen_at l1 pos = is_hyphen_at l2 pos.
Proof.
  intros H. unfold is_hyphen_at.
  pose proof (proj1 (Forall2_lookup _ _ _) H pos) as Hl.
  destruct Hl as [c1 c2 Hc |]; [| reflexivity].
  by destruct (case_variant_facts _ _ Hc) as (_ & _ & E).
Qed.

Lemma parse_spec_case_variant s1 s2 :
  Forall2 case_variant s1 s2 -> parse_spec s1 = parse_spec s2.
Proof.
  intros H. unfold parse_spec, hyphens_ok, decode.
  rewrite !(case_variant_hyphen s1 s2) by done.
  assert (Hd : Forall2 case_variant (digits s1) (digits s2)).
  { unfold digits. repeat apply Forall2_app; by apply case_variant_field. }
  rewrite (case_variant_all_hex _ _ Hd).
  unfold hex_number.
  rewrite !(case_variant_fold (field s1 _ _) (field s2 _ _))
    by (by apply case_variant_field).
  rewrite !(case_variant_bytes (field s1 _ _) (field s2 _ _))
    by (by apply case_variant_field).
  reflexivity.
Qed.

(** C5. Two 36-character inputs that differ only at hex-digit positions,
    and there only by the case of a hex letter, get the same answer from
    parse_guid: the same exception, or the same GUID. *)
Theorem parse_guid_case_insensitive (s1 s2 : list ascii) :
  length s1 = 36%nat ->
  length s2 = 36%nat ->
  (forall i c1 c2,
      s1 !! i = Some c1 -> s2 !! i = Some c2 -> c1 <> c2 ->
      is_hyphen_position i = false /\ same_letter c1 c2 = true) ->
  parse_guid s1 36 = parse_guid s2 36.
Proof.
  intros H1 H2 Hdiff. rewrite !parse_guid_eq by lia. f_equal.
  apply parse_spec_case_variant, Forall2_same_length_lookup_2; [congruence |].
  intros i c1 c2 E1 E2. destruct (decide (c1 = c2)) as [-> | Hne].
  - by left.
  - right. by destruct (Hdiff i c1 c2 E1 E2 Hne).
Qed.

Lemma parse_guid_case_insensitive_witness :
  parse_guid (list_ascii_of_string "0a2b4c6d-8eAf-cDeF-fedc-BA9876543210") 36
  = parse_guid (list_ascii_of_string "0A2b4C6D-8EaF-CdEf-FEDC-ba9876543210") 36.
Proof.
  apply parse_guid_case_insensitive; [reflexivity | reflexivity |].
  intros i c1 c2 E1 E2 Hne.
  do 36 (destruct i as [|i];
         [cbn in E1, E2; injection E1 as <-; injection E2 as <-;
          first [by destruct Hne | by split] |]).
  discriminate E1.
Defined.

(** ** The container-id extractor *)

(** Sample runs, with the tag value of evntcons.h and the platform call
    modelled from the specification. *)
Example extract_example :
  GetContainerId CONTAINER_ID_TAG CLSIDFromString_spec GUID (fun g => g) false
    {| ExtendedDataCount := 2;
       ExtendedData :=
         [ {| ExtType := 1; DataSize := 16; DataPtr := [] |};
           {| ExtType := CONTAINER_ID_TAG; DataSize := 36;
              DataPtr := list_ascii_of_string
                           "00000000-0000-0000-0000-000000000001" |} ] |}
  = Returns (Result (Some {| Data1 := 0; Data2 := 0; Data3 := 0;
                             Data4 := [0; 0; 0; 0; 0; 0; 0; 1] |})).
Proof. vm_compute. reflexivity. Qed.

Example extract_malformed :
  GetContainerId CONTAINER_ID_TAG CLSIDFromString_spec GUID (fun g => g) false
    {| ExtendedDataCount := 1;
       ExtendedData :=
         [ {| ExtType := CONTAINER_ID_TAG; DataSize := 36;
              DataPtr := list_ascii_of_string
                           "00000000-0000-0000-0000-00000000000x" |} ] |}
  = Returns (ContainerIdFormatException CO_E_CLASSSTRING
               (wide "{00000000-0000-0000-0000-00000000000x}")).
Proof. vm_compute. reflexivity. Qed.

Lemma copy_container_id_eq data todo :
  forall c buffer,
    (c + todo <= length data)%nat ->
    (c + 1 + todo <= length buffer)%nat ->
    copy_container_id data buffer todo c =
    Returns (take (c + 1) buffer
               ++ map wchar_of_char (take todo (drop c data))
               ++ drop (c + 1 + todo) buffer).
Proof.
  induction todo as [|todo IH]; intros c buffer Hd Hb.
  - cbn [copy_container_id]. rewrite take_0. cbn [map app].
    rewrite Nat.add_0_r, take_drop. reflexivity.
  - destruct (lookup_lt_is_Some_2 data c) as [ch Hch]; [lia |].
    destruct (lookup_lt_is_Some_2 buffer (c + 1)) as [old Hold]; [lia |].
    cbn [copy_container_id]. unfold read. rewrite Hch. cbn [run_bind].
    rewrite IH; [| lia | rewrite length_insert; lia]. f_equal.
    rewrite (drop_S _ _ _ Hch). cbn [take map].
    replace (S c + 1)%nat with (S (c + 1)) by lia.
    rewrite take_insert_lt by lia. rewrite (take_S_r _ _ old) by done.
    rewrite insert_app_r_alt by (rewrite length_take; lia).
    rewrite length_take, Nat.min_l by lia.
    replace (c + 1 - (c + 1))%nat with 0%nat by lia. cbn [insert list_insert].
    rewrite <- app_assoc. cbn [app]. f_equal. f_equal. f_equal.
    rewrite drop_insert_lt by lia. f_equal. lia.
Qed.

Section Extractor.
Variable EVENT_HEADER_EXT_TYPE_CONTAINER_ID : Z.
Variable CLSIDFromString : list Z -> Z * GUID.
Variable Guid : Type.
Variable ConvertGuid : GUID -> Guid.

Lemma scan_skips NDEBUG record_ n :
  forall todo i,
    (n <= todo)%nat ->
    (i + n <= length (ExtendedData record_))%nat ->
    Forall (fun x => ExtType x <> EVENT_HEADER_EXT_TYPE_CONTAINER_ID)
      (take n (drop i (ExtendedData record_))) ->
    GetContainerId_for EVENT_HEADER_EXT_TYPE_CONTAINER_ID CLSIDFromString
      Guid ConvertGuid NDEBUG record_ todo i =
    GetContainerId_for EVENT_HEADER_EXT_TYPE_CONTAINER_ID CLSIDFromString
      Guid ConvertGuid NDEBUG record_ (todo - n) (i + n).
Proof.
  induction n as [|n IH]; intros todo i Hn Hlen Hall.
  - by rewrite Nat.sub_0_r, Nat.add_0_r.
  - destruct todo as [|todo]; [lia |].
    destruct (lookup_lt_is_Some_2 (ExtendedData record_) i) as [x Hx];
      [lia |].
    rewrite (drop_S _ _ _ Hx) in Hall. cbn [take] in Hall.
    apply Forall_cons in Hall as [Hx' Hall].
    cbn [GetContainerId_for]. unfold read. rewrite Hx. cbn [run_bind].
    destruct (Z.eqb_spec (ExtType x) EVENT_HEADER_EXT_TYPE_CONTAINER_ID)
      as [E | _]; [contradiction |].
    rewrite IH by (done || lia). f_equal; lia.
Qed.

Lemma scan_finds NDEBUG record_ k item :
  first_container_id EVENT_HEADER_EXT_TYPE_CONTAINER_ID record_ k item ->
  GetContainerId EVENT_HEADER_EXT_TYPE_CONTAINER_ID CLSIDFromString Guid
    ConvertGuid NDEBUG record_ =
  container_id_of CLSIDFromString Guid ConvertGuid NDEBUG item.
Proof.
  intros (Hk & Hitem & Htag & Hbefore).
  pose proof (lookup_lt_Some _ _ _ Hitem) as Hlt.
  unfold GetContainerId. rewrite (scan_skips _ _ k); [| lia | lia | done].
  destruct (ExtendedDataCount record_ - k)%nat as [|todo] eqn:E; [lia |].
  cbn [GetContainerId_for Nat.add]. unfold read. rewrite Hitem.
  cbn [run_bind]. by rewrite Htag, Z.eqb_refl.
Qed.

Lemma container_id_of_eq NDEBUG item :
  NDEBUG = true \/ DataSize item = 36 ->
  (36 <= length (DataPtr item))%nat ->
  container_id_of CLSIDFromString Guid ConvertGuid NDEBUG item =
  Returns (parse_container_id CLSIDFromString Guid ConvertGuid
             (braced (DataPtr item))).
Proof.
  intros Hchk Hlen. unfold container_id_of, assert.
  replace (NDEBUG
           || (DataSize item =? Z.of_nat CONTAINER_ID_DATA_LENGTH_IN_BYTES))
    with true.
  2:{ destruct Hchk as [-> | ->]; [reflexivity |]. by rewrite orb_true_r. }
  cbn [run_bind]. unfold CONTAINER_ID_DATA_LENGTH_IN_BYTES.
  rewrite copy_container_id_eq; [| done | vm_compute; lia].
  reflexivity.
Qed.

(** C8. A record none of whose items is tagged as a container id (in
    particular a record with no items at all) yields null, not an
    exception. When some item is tagged as a container id, the answer is
    computed from the first such item alone: whatever comes before or after
    it does not matter. *)
Theorem GetContainerId_first_match (NDEBUG : bool) (record_ : EVENT_RECORD) :
  ((ExtendedDataCount record_ <= length (ExtendedData record_))%nat ->
   Forall (fun x => ExtType x <> EVENT_HEADER_EXT_TYPE_CONTAINER_ID)
     (take (ExtendedDataCount record_) (ExtendedData record_)) ->
   GetContainerId EVENT_HEADER_EXT_TYPE_CONTAINER_ID CLSIDFromString Guid
     ConvertGuid NDEBUG record_ = Returns (Result None))
  /\ (ExtendedDataCount record_ = 0%nat ->
      GetContainerId EVENT_HEADER_EXT_TYPE_CONTAINER_ID CLSIDFromString Guid
        ConvertGuid NDEBUG record_ = Returns (Result None))
  /\ (forall k item,
         first_container_id EVENT_HEADER_EXT_TYPE_CONTAINER_ID record_ k item ->
         GetContainerId EVENT_HEADER_EXT_TYPE_CONTAINER_ID CLSIDFromString
           Guid ConvertGuid NDEBUG record_ =
         container_id_of CLSIDFromString Guid ConvertGuid NDEBUG item).
Proof.
  repeat split.
  - intros Hlen Hall. unfold GetContainerId.
    rewrite (scan_skips _ _ (ExtendedDataCount record_)); try done.
    by rewrite Nat.sub_diag.
  - unfold GetContainerId. by intros ->.
  - intros k item. apply scan_finds.
Qed.

(** C9 (as the code has it). For a record whose first container-id item
    declares 36 bytes and holds them, the extractor copies exactly those
    36 bytes between the braces of its local buffer and parses the buffer.
    The declared length is checked by an [assert] only: with assertions
    compiled in, a declared length other than 36 stops the call at the
    assertion, before anything is copied; no error value is produced. *)
Theorem GetContainerId_length_check (NDEBUG : bool) (record_ : EVENT_RECORD)
    (k : nat) (item : EVENT_HEADER_EXTENDED_DATA_ITEM) :
  first_container_id EVENT_HEADER_EXT_TYPE_CONTAINER_ID record_ k item ->
  (DataSize item = 36 ->
   (36 <= length (DataPtr item))%nat ->
   GetContainerId EVENT_HEADER_EXT_TYPE_CONTAINER_ID CLSIDFromString Guid
     ConvertGuid NDEBUG record_ =
   Returns (parse_container_id CLSIDFromString Guid ConvertGuid
              (braced (DataPtr item))))
  /\ (NDEBUG = false -> DataSize item <> 36 ->
      GetContainerId EVENT_HEADER_EXT_TYPE_CONTAINER_ID CLSIDFromString Guid
        ConvertGuid NDEBUG record_ = AssertionFailed).
Proof.
  intros Hfirst. rewrite (scan_finds _ _ _ _ Hfirst). split.
  - intros Hsize. apply container_id_of_eq. by right.
  - intros -> Hsize. unfold container_id_of, assert.
    by destruct (Z.eqb_spec (DataSize item)
                   (Z.of_nat CONTAINER_ID_DATA_LENGTH_IN_BYTES)).
Qed.
End Extractor.

Lemma GetContainerId_first_match_witness :
  GetContainerId CONTAINER_ID_TAG CLSIDFromString_spec GUID (fun g => g) false
    record_without
  = Returns (Result None)
  /\ GetContainerId CONTAINER_ID_TAG CLSIDFromString_spec GUID (fun g => g)
       false record_with_two
     = Returns (Result (Some (last_byte 1))).
Proof.
  split.
  - apply (proj1 (GetContainerId_first_match CONTAINER_ID_TAG
                    CLSIDFromString_spec GUID (fun g => g) false
                    record_without)).
    + simpl. lia.
    + repeat constructor; discriminate.
  - rewrite (proj2 (proj2 (GetContainerId_first_match CONTAINER_ID_TAG
                    CLSIDFromString_spec GUID (fun g => g) false
                    record_with_two))
               1%nat
               (container_item 36 "00000000-0000-0000-0000-000000000001")).
    + reflexivity.
    + repeat split; [simpl; lia | repeat constructor; discriminate].
Defined.

Lemma GetContainerId_length_check_witness :
  GetContainerId CONTAINER_ID_TAG CLSIDFromString_spec GUID (fun g => g) false
    record_with_two
  = Returns (Result (Some (last_byte 1)))
  /\ GetContainerId CONTAINER_ID_TAG CLSIDFromString_spec GUID (fun g => g)
       false record_short
     = AssertionFailed.
Proof.
  split.
  - rewrite (proj1 (GetContainerId_length_check CONTAINER_ID_TAG
                      CLSIDFromString_spec GUID (fun g => g) false
                      record_with_two 1%nat
                      (container_item 36 "00000000-0000-0000-0000-000000000001")
                      ltac:(repeat split; [simpl; lia
                                          | repeat constructor; discriminate])));
      [reflexivity | reflexivity | vm_compute; lia].
  - apply (proj2 (GetContainerId_length_check CONTAINER_ID_TAG
                    CLSIDFromString_spec GUID (fun g => g) false
                    record_short 1%nat
                    (container_item 35 "00000000-0000-0000-0000-00000000001")
                    ltac:(repeat split; [simpl; lia
                                        | repeat constructor; discriminate])));
      [reflexivity | discriminate].
Defined.

(** C9 as stated fails: an item that declares 37 bytes is not answered with
    a length error. Compiled with NDEBUG its first 36 bytes are copied and
    parsed, and an identifier is returned; with assertions the call stops at
    the assertion. *)
Lemma GetContainerId_reports_no_length_error :
  GetContainerId CONTAINER_ID_TAG CLSIDFromString_spec GUID (fun g => g) true
    record_long
  = Returns (Result (Some (last_byte 1)))
  /\ GetContainerId CONTAINER_ID_TAG CLSIDFromString_spec GUID (fun g => g)
       false record_long
     = AssertionFailed.
Proof. split; reflexivity. Qed.

(** ** Printing and parsing back *)

Example round_trip_example :
  to_wstring (StringFromCLSID_spec true)
    {| Data1 := 0x01234567; Data2 := 0x89AB; Data3 := 0xCDEF;
       Data4 := [0xFE; 0xDC; 0xBA; 0x98; 0x76; 0x54; 0x32; 0x10] |}
  = Printed (wide "{01234567-89AB-CDEF-FEDC-BA9876543210}")
  /\ guid_of_wstring CLSIDFromString_spec
       (wide "{01234567-89AB-CDEF-FEDC-BA9876543210}")
     = Constructed {| Data1 := 0x01234567; Data2 := 0x89AB; Data3 := 0xCDEF;
                      Data4 := [0xFE; 0xDC; 0xBA; 0x98; 0x76; 0x54; 0x32; 0x10] |}.
Proof. split; vm_compute; reflexivity. Qed.

Lemma hex_digit_char_ok upper z :
  is_hex_digit (hex_digit_char upper (z mod 16)) = true
  /\ hex_digit_value (hex_digit_char upper (z mod 16)) = z mod 16
  /\ Ascii.eqb (hex_digit_char upper (z mod 16)) "000" = false.
Proof.
  pose proof (Z.mod_pos_bound z 16 ltac:(lia)) as Hv.
  set (v := z mod 16) in *. clearbody v.
  assert (H : v = 0 \/ v = 1 \/ v = 2 \/ v = 3 \/ v = 4 \/ v = 5 \/ v = 6
              \/ v = 7 \/ v = 8 \/ v = 9 \/ v = 10 \/ v = 11 \/ v = 12
              \/ v = 13 \/ v = 14 \/ v = 15) by lia.
  repeat destruct H as [-> | H]; try subst v; destruct upper;
    vm_compute; repeat split.
Qed.

Lemma hex_number_snoc l c :
  hex_number (l ++ [c]) = 16 * hex_number l + hex_digit_value c.
Proof. unfold hex_number. by rewrite fold_left_app. Qed.

Lemma hex_text_number upper n :
  forall z, hex_number (hex_text upper n z) = z mod 16 ^ Z.of_nat n.
Proof.
  induction n as [|n IH]; intros z.
  - cbn. by rewrite Z.mod_1_r.
  - cbn [hex_text]. rewrite hex_number_snoc, IH.
    destruct (hex_digit_char_ok upper z) as (_ & -> & _).
    rewrite Nat2Z.inj_succ, Z.pow_succ_r by lia.
    assert (0 < 16 ^ Z.of_nat n) by (apply Z.pow_pos_nonneg; lia).
    rewrite Z.rem_mul_r by lia. lia.
Qed.

Lemma hex_text_all_hex upper n :
  forall z, forallb is_hex_digit (hex_text upper n z) = true.
Proof.
  induction n as [|n IH]; intros z; [reflexivity |].
  cbn [hex_text]. rewrite forallb_app, IH. cbn [forallb].
  by destruct (hex_digit_char_ok upper z) as (-> & _ & _).
Qed.

Lemma hex_text_no_nul upper n :
  forall z, no_nul (hex_text upper n z) = true.
Proof.
  unfold no_nul. induction n as [|n IH]; intros z; [reflexivity |].
  cbn [hex_text]. rewrite forallb_app, IH. cbn [forallb].
  by destruct (hex_digit_char_ok upper z) as (_ & _ & ->).
Qed.

Lemma hex_octets_all_hex upper bs :
  forallb is_hex_digit (flat_map (hex_text upper 2) bs) = true.
Proof.
  induction bs as [|b bs IH]; [reflexivity |].
  cbn [flat_map]. by rewrite forallb_app, hex_text_all_hex, IH.
Qed.

Lemma hex_octets_no_nul upper bs :
  no_nul (flat_map (hex_text upper 2) bs) = true.
Proof.
  unfold no_nul. induction bs as [|b bs IH]; [reflexivity |].
  cbn [flat_map]. rewrite forallb_app, IH.
  pose proof (hex_text_no_nul upper 2 b) as H. unfold no_nul in H.
  by rewrite H.
Qed.

Lemma hex_octets_bytes upper bs :
  forallb (fun b => (0 <=? b) && (b <? 256)) bs = true ->
  hex_bytes (flat_map (hex_text upper 2) bs) = bs.
Proof.
  induction bs as [|b bs IH]; [reflexivity |].
  cbn [forallb]. intros [Hb Hbs]%andb_prop.
  apply andb_prop in Hb as [Hb0 Hb1].
  apply Z.leb_le in Hb0. apply Z.ltb_lt in Hb1.
  change (flat_map (hex_text upper 2) (b :: bs))
    with (hex_digit_char upper (b / 16 mod 16)
            :: hex_digit_char upper (b mod 16)
            :: flat_map (hex_text upper 2) bs).
  cbn [hex_bytes]. rewrite IH by done.
  destruct (hex_digit_char_ok upper (b / 16)) as (_ & -> & _).
  destruct (hex_digit_char_ok upper b) as (_ & -> & _).
  f_equal. Z.to_euclidean_division_equations. lia.
Qed.

Lemma canonical_text_shape upper d1 d2 d3 b0 b1 b2 b3 b4 b5 b6 b7 :
  let s := to_canonical_string upper
             {| Data1 := d1; Data2 := d2; Data3 := d3;
                Data4 := [b0; b1; b2; b3; b4; b5; b6; b7] |} in
  length s = 36%nat
  /\ hyphens_ok s = true
  /\ field s 0 8 = hex_text upper 8 d1
  /\ field s 9 4 = hex_text upper 4 d2
  /\ field s 14 4 = hex_text upper 4 d3
  /\ field s 19 4 = flat_map (hex_text upper 2) [b0; b1]
  /\ field s 24 12 = flat_map (hex_text upper 2) [b2; b3; b4; b5; b6; b7].
Proof. repeat split. Qed.

Lemma GUID_in_range_fields g :
  GUID_in_range g = true ->
  0 <= Data1 g < 2 ^ 32 /\ 0 <= Data2 g < 2 ^ 16 /\ 0 <= Data3 g < 2 ^ 16
  /\ length (Data4 g) = 8%nat
  /\ forallb (fun b => (0 <=? b) && (b <? 256)) (Data4 g) = true.
Proof.
  unfold GUID_in_range. intros H.
  repeat (apply andb_prop in H as [H ?]).
  repeat match goal with
         | H : (_ <=? _) = true |- _ => apply Z.leb_le in H
         | H : (_ <? _) = true |- _ => apply Z.ltb_lt in H
         | H : bool_decide _ = true |- _ => apply bool_decide_eq_true in H
         end.
  repeat split; done.
Qed.

Lemma parse_canonical_text upper g :
  GUID_in_range g = true ->
  length (to_canonical_string upper g) = 36%nat
  /\ parse_guid (to_canonical_string upper g) 36 = Returns (Ok g).
Proof.
  intros Hg. destruct (GUID_in_range_fields g Hg) as (H1 & H2 & H3 & H4 & H5).
  clear Hg. explicit_bytes g H4.
  cbn [Data1 Data2 Data3 Data4] in *.
  destruct (canonical_text_shape upper d1 d2 d3 z z0 z1 z2 z3 z4 z5 z6)
    as (Hlen & Hhy & F1 & F2 & F3 & F4 & F5).
  cbv zeta in Hlen, Hhy, F1, F2, F3, F4, F5.
  split; [exact Hlen |].
  rewrite parse_guid_eq by lia. unfold parse_spec, digits, decode.
  rewrite Hhy, F1, F2, F3, F4, F5, !forallb_app, !hex_text_all_hex,
    !hex_octets_all_hex.
  cbn [negb andb]. rewrite !hex_text_number.
  cbn [forallb] in H5.
  repeat (apply andb_prop in H5 as [? H5]).
  rewrite !hex_octets_bytes
    by (cbn [forallb];
        repeat match goal with
               | H : _ && _ = true |- _ => rewrite H; clear H
               end; reflexivity).
  change (16 ^ Z.of_nat 8) with (2 ^ 32). change (16 ^ Z.of_nat 4) with (2 ^ 16).
  by rewrite !Z.mod_small by lia.
Qed.

Lemma wcs_widen l rest :
  no_nul l = true -> wcs (widen l ++ 0 :: rest) = widen l.
Proof.
  unfold no_nul. induction l as [|c l IH]; [reflexivity |].
  cbn [forallb widen map app wcs]. intros [Hc Hl]%andb_prop.
  fold (widen l). rewrite IH by done.
  destruct (Z.eqb_spec (Z.of_N (N_of_ascii c)) 0) as [E | _]; [| reflexivity].
  change 0 with (Z.of_N (N_of_ascii "000")) in E.
  apply N2Z.inj, (f_equal ascii_of_N) in E. rewrite !ascii_N_embedding in E.
  subst c. discriminate Hc.
Qed.

Lemma widen_app l1 l2 : widen (l1 ++ l2) = widen l1 ++ widen l2.
Proof. apply map_app. Qed.

Lemma narrow_widen l : narrow (widen l) = Some l.
Proof.
  induction l as [|c l IH]; [reflexivity |].
  cbn [widen map narrow]. fold (widen l). rewrite IH.
  pose proof (N_ascii_bounded c) as Hc.
  destruct (Z.leb_spec 0 (Z.of_N (N_of_ascii c))); [| lia].
  destruct (Z.ltb_spec (Z.of_N (N_of_ascii c)) 256); [| lia].
  cbn [andb fmap option_fmap option_map]. by rewrite N2Z.id, ascii_N_embedding.
Qed.

Lemma canonical_text_no_nul upper g :
  no_nul ("{"%char :: to_canonical_string upper g ++ ["}"%char]) = true.
Proof.
  unfold no_nul, to_canonical_string. cbn [forallb].
  repeat (rewrite forallb_app || cbn [forallb negb andb Ascii.eqb]
          || rewrite (hex_text_no_nul upper _ _ : forallb _ _ = true)
          || rewrite (hex_octets_no_nul upper _ : forallb _ _ = true)).
  reflexivity.
Qed.

Lemma from_bytes_in_range v :
  length v = 16%nat -> forallb is_byte v = true ->
  GUID_in_range (from_bytes v) = true.
Proof.
  intros Hlen Hv.
  do 16 (destruct v as [|? v]; [discriminate Hlen |]).
  destruct v; [| discriminate Hlen]. clear Hlen.
  cbn [forallb] in Hv. unfold is_byte in Hv.
  repeat (apply andb_prop in Hv as [? Hv]).
  repeat match goal with
         | H : _ && _ = true |- _ => apply andb_prop in H as [? ?]
         end.
  repeat match goal with
         | H : (_ <=? _) = true |- _ => apply Z.leb_le in H
         | H : (_ <? _) = true |- _ => apply Z.ltb_lt in H
         end.
  unfold GUID_in_range, from_bytes, little_endian.
  cbn [take drop fold_right Data1 Data2 Data3 Data4 length forallb].
  change (2 ^ 32) with 4294967296. change (2 ^ 16) with 65536.
  repeat (apply andb_true_intro; split);
    first [ apply Z.leb_le; lia | apply Z.ltb_lt; lia | reflexivity ].
Qed.

(** C2. For every 16-byte value [v], the canonical text written for the
    GUID of [v] (in either letter case) is read back by the parser as that
    same GUID; and through the constructor from a string and to_wstring,
    with the platform conversions modelled as the specification describes
    them, printing the GUID and constructing a guid from the printed string
    gives the GUID back. *)
Theorem guid_string_round_trip (upper : bool) (v : list Z) :
  length v = 16%nat ->
  forallb is_byte v = true ->
  let g := from_bytes v in
  from_canonical_string (to_canonical_string upper g) = Returns (Ok g)
  /\ to_wstring (StringFromCLSID_spec upper) g
     = Printed (widen ("{"%char :: to_canonical_string upper g ++ ["}"%char]))
  /\ guid_of_wstring CLSIDFromString_spec
       (widen ("{"%char :: to_canonical_string upper g ++ ["}"%char]))
     = Constructed g.
Proof.
  intros Hv Hb g. pose proof (from_bytes_in_range v Hv Hb) as Hg.
  fold g in Hg. clearbody g.
  destruct (parse_canonical_text upper g Hg) as [Hlen Hparse].
  repeat split.
  - unfold from_canonical_string. by rewrite Hlen.
  - unfold to_wstring, StringFromCLSID_spec. cbn [FAILED S_OK Z.ltb Z.compare].
    by rewrite wcs_widen by apply canonical_text_no_nul.
  - unfold guid_of_wstring, CLSIDFromString_spec.
    rewrite wcs_widen by apply canonical_text_no_nul.
    cbn [widen map]. fold (widen (to_canonical_string upper g ++ ["}"%char])).
    rewrite Z.eqb_refl, !widen_app.
    assert (Hw : length (widen (to_canonical_string upper g)) = 36%nat)
      by (unfold widen; by rewrite length_map).
    rewrite drop_app_length', take_app_length' by (symmetry; exact Hw).
    rewrite bool_decide_eq_true_2 by reflexivity.
    cbn [andb]. rewrite narrow_widen, Hparse. reflexivity.
Qed.

Lemma guid_string_round_trip_witness :
  from_canonical_string
    (to_canonical_string false
       (from_bytes [0x67; 0x45; 0x23; 0x01; 0xAB; 0x89; 0xEF; 0xCD;
                    0xFE; 0xDC; 0xBA; 0x98; 0x76; 0x54; 0x32; 0x10]))
  = Returns (Ok {| Data1 := 0x01234567; Data2 := 0x89AB; Data3 := 0xCDEF;
                   Data4 := [0xFE; 0xDC; 0xBA; 0x98; 0x76; 0x54; 0x32; 0x10] |}).
Proof.
  exact (proj1 (guid_string_round_trip false
                  [0x67; 0x45; 0x23; 0x01; 0xAB; 0x89; 0xEF; 0xCD;
                   0xFE; 0xDC; 0xBA; 0x98; 0x76; 0x54; 0x32; 0x10]
                  eq_refl eq_refl)).
Defined.

(** * Further properties of the parser *)

Lemma hex_bytes_length ds :
  length (hex_bytes ds) = Nat.div2 (length ds).
Proof.
  induction ds as [ds IH] using (induction_ltof1 _ (@length ascii)).
  destruct ds as [|a [|b ds]]; try reflexivity.
  cbn [hex_bytes length Nat.div2]. rewrite IH; [reflexivity |].
  unfold ltof; simpl; lia.
Qed.

Lemma pow16_bit_width T :
  16 ^ Z.of_nat (2 * sizeof T) = 2 ^ bit_width T.
Proof.
  unfold bit_width. rewrite Nat2Z.inj_mul.
  change (Z.of_nat 2) with 2. change 16 with (2 ^ 4).
  rewrite <- Z.pow_mul_r by lia. f_equal. lia.
Qed.

(** hex_string_to_number<T> reads the 2*sizeof(T) characters at the pointer
    and nothing behind them; it succeeds exactly when all of them are hex
    digits, and the number it stores, most significant digit first, fits
    [T]. *)
Theorem hex_string_to_number_decodes (T : uint_type) (str rest : list ascii)
    (int_output : Z) :
  length str = (2 * sizeof T)%nat ->
  hex_string_to_number T (str ++ rest) int_output =
    Returns (if forallb is_hex_digit str then (true, hex_number str)
             else (false, int_output))
  /\ 0 <= hex_number str < 2 ^ bit_width T.
Proof.
  intros Hlen. split.
  - rewrite hex_string_to_number_eq by (rewrite length_app; lia).
    cbn zeta. by rewrite <- Hlen, take_app_length.
  - rewrite <- pow16_bit_width, <- Hlen. apply hex_number_bound.
Qed.

Lemma hex_string_to_number_decodes_witness :
  hex_string_to_number unsigned_long
    (list_ascii_of_string "DEADbeef" ++ list_ascii_of_string "-0000") 7
  = Returns (true, 0xDEADBEEF).
Proof.
  exact (proj1 (hex_string_to_number_decodes unsigned_long
                  (list_ascii_of_string "DEADbeef")
                  (list_ascii_of_string "-0000") 7 eq_refl)).
Defined.

(** When all 2*byte_count characters are hex digits, hex_string_to_bytes
    returns true with the decoded bytes at the start of the output buffer;
    the rest of the buffer and its size are unchanged, and nothing behind
    the characters is read. *)
Theorem hex_string_to_bytes_decodes (str rest : list ascii) (out : list Z)
    (byte_count : nat) :
  length str = (2 * byte_count)%nat ->
  (byte_count <= length out)%nat ->
  forallb is_hex_digit str = true ->
  hex_string_to_bytes (str ++ rest) out byte_count =
    Returns (true, hex_bytes str ++ drop byte_count out)
  /\ length (hex_bytes str) = byte_count
  /\ length (hex_bytes str ++ drop byte_count out) = length out.
Proof.
  intros Hlen Hout Hhex.
  assert (Hb : length (hex_bytes str) = byte_count).
  { rewrite hex_bytes_length, Hlen. apply Nat.div2_double. }
  repeat split; [| exact Hb |].
  - rewrite hex_string_to_bytes_all by (rewrite ?length_app; lia).
    cbn zeta. by rewrite <- Hlen, take_app_length, Hhex.
  - rewrite length_app, length_drop, Hb. lia.
Qed.

Lemma hex_string_to_bytes_decodes_witness :
  hex_string_to_bytes (list_ascii_of_string "1f2E" ++ list_ascii_of_string "zz")
    [0xAA; 0xBB; 0xCC] 2
  = Returns (true, [0x1F; 0x2E; 0xCC]).
Proof.
  exact (proj1 (hex_string_to_bytes_decodes (list_ascii_of_string "1f2E")
                  (list_ascii_of_string "zz") [0xAA; 0xBB; 0xCC] 2
                  eq_refl ltac:(simpl; lia) eq_refl)).
Defined.

Lemma hex_string_to_bytes_for_frame str todo :
  forall i (out : list Z) ok out',
    hex_string_to_bytes_for str out todo i = Returns (ok, out') ->
    length out' = length out
    /\ take i out' = take i out
    /\ drop (i + todo) out' = drop (i + todo) out.
Proof.
  induction todo as [|todo IH]; intros i out ok out' H.
  - cbn in H. by injection H as _ <-.
  - cbn [hex_string_to_bytes_for] in H. unfold read in H.
    destruct (out !! i) as [cell|] eqn:Hcell; [| discriminate H].
    cbn [run_bind] in H.
    destruct (hex_octet_to_byte (drop (i * 2) str) cell) as [[ok1 cell']| |];
      try discriminate H.
    cbn [run_bind] in H.
    pose proof (lookup_lt_Some _ _ _ Hcell) as Hi.
    destruct ok1; cbn [negb] in H.
    + apply IH in H as (H1 & H2 & H3). rewrite length_insert in H1.
      split; [exact H1 |]. split.
      * apply (f_equal (take i)) in H2. rewrite !take_take in H2.
        rewrite !Nat.min_l in H2 by lia.
        by rewrite H2, take_insert_ge.
      * replace (i + S todo)%nat with (S i + todo)%nat by lia.
        rewrite H3. apply drop_insert_lt. lia.
    + injection H as _ <-. rewrite length_insert. split; [done |]. split.
      * by apply take_insert_ge.
      * apply drop_insert_lt. lia.
Qed.

(** Whatever the characters are, a call of hex_string_to_bytes that returns
    leaves the output buffer at its size and touches none of its bytes from
    index byte_count on. *)
Theorem hex_string_to_bytes_frame (str : list ascii) (out out' : list Z)
    (byte_count : nat) (ok : bool) :
  hex_string_to_bytes str out byte_count = Returns (ok, out') ->
  length out' = length out
  /\ drop byte_count out' = drop byte_count out.
Proof.
  intros H. apply hex_string_to_bytes_for_frame in H as (H1 & _ & H3).
  by split.
Qed.

Lemma hex_string_to_bytes_frame_witness :
  length [0x1F; 0xBB; 0xCC] = length [0xAA; 0xBB; 0xCC]
  /\ drop 2 [0x1F; 0xBB; 0xCC] = drop 2 [0xAA; 0xBB; 0xCC].
Proof.
  exact (hex_string_to_bytes_frame (list_ascii_of_string "1f2g")
           [0xAA; 0xBB; 0xCC] [0x1F; 0xBB; 0xCC] 2 false eq_refl).
Defined.

(** On 36 characters parse_guid returns a GUID exactly when the string is
    canonical: hyphens at 8, 13, 18, 23 and hex digits everywhere else. No
    sign, blank, brace or other notation is accepted. *)
Theorem parse_guid_accepts_canonical_only (s : list ascii) :
  length s = 36%nat ->
  (exists g, parse_guid s 36 = Returns (Ok g)) <-> canonical s = true.
Proof.
  intros Hlen. rewrite parse_guid_eq by lia. unfold parse_spec, canonical.
  rewrite bool_decide_eq_true_2 by exact Hlen. cbn [andb].
  destruct (hyphens_ok s); cbn [negb andb].
  - destruct (forallb is_hex_digit (digits s)).
    + split; [done | by eexists].
    + split; [by intros [g Hg] | done].
  - split; [by intros [g Hg] | done].
Qed.

Lemma parse_guid_accepts_canonical_only_witness :
  exists g,
    parse_guid (list_ascii_of_string "01234567-89aB-cDeF-fedc-BA9876543210") 36
    = Returns (Ok g).
Proof.
  apply (proj2 (parse_guid_accepts_canonical_only
                  (list_ascii_of_string "01234567-89aB-cDeF-fedc-BA9876543210")
                  eq_refl)).
  reflexivity.
Defined.

(** The hyphens are checked before any digit is decoded: when one of the
    four positions does not hold '-', parse_guid throws the missing-hyphen
    error whatever the other characters are; the non-hex-digit error is
    thrown only when the four hyphens are in place. *)
Theorem parse_guid_error_precedence (s : list ascii) :
  (36 <= length s)%nat ->
  (hyphens_ok s = false ->
   parse_guid s 36 = Returns (Throw missing_hyphen))
  /\ (hyphens_ok s = true ->
      forallb is_hex_digit (digits s) = false ->
      parse_guid s 36 = Returns (Throw non_hex_digits)).
Proof.
  intros Hlen. rewrite parse_guid_eq by exact Hlen. unfold parse_spec.
  split.
  - by intros ->.
  - by intros -> ->.
Qed.

Lemma parse_guid_error_precedence_witness :
  parse_guid (list_ascii_of_string "0123456x+89aB-cDeF-fedc-BA9876543210") 36
  = Returns (Throw missing_hyphen)
  /\ parse_guid (list_ascii_of_string "0123456x-89aB-cDeF-fedc-BA9876543210") 36
     = Returns (Throw non_hex_digits).
Proof.
  split.
  - apply (proj1 (parse_guid_error_precedence
                    (list_ascii_of_string "0123456x+89aB-cDeF-fedc-BA9876543210")
                    ltac:(simpl; lia))).
    reflexivity.
  - apply (proj2 (parse_guid_error_precedence
                    (list_ascii_of_string "0123456x-89aB-cDeF-fedc-BA9876543210")
                    ltac:(simpl; lia))); reflexivity.
Defined.

(** In a canonical string, any character that is not a hex digit (a blank,
    a NUL, a 'g') put at one of the 32 digit positions makes parse_guid throw
    the non-hex-digit error. *)
Theorem parse_guid_rejects_non_hex (s : list ascii) (i : nat) (c : ascii) :
  canonical s = true ->
  (i < 36)%nat ->
  is_hyphen_position i = false ->
  is_hex_digit c = false ->
  parse_guid (<[i:=c]> s) 36 = Returns (Throw non_hex_digits).
Proof.
  intros Hcan Hi Hpos Hbad.
  assert (Hlen : length s = 36%nat).
  { unfold canonical in Hcan. apply andb_prop in Hcan as [Hcan _].
    apply andb_prop in Hcan as [Hcan _]. by apply bool_decide_eq_true in Hcan. }
  rewrite parse_guid_eq by (rewrite length_insert; lia).
  explicit_chars s Hlen. destruct s; [| discriminate].
  split_canonical Hcan.
  each_position i Hi; try discriminate Hpos.
  all: unfold parse_spec, hyphens_ok, is_hyphen_at, digits, field;
    cbn [insert list_insert lookup list_lookup take drop app forallb].
  all: rewrite Hc0, Hbad; cbn [negb andb];
    rewrite ?andb_false_r; reflexivity.
Qed.

Lemma parse_guid_rejects_non_hex_witness :
  parse_guid
    (<[20%nat:="000"%char]>
       (list_ascii_of_string "01234567-89aB-cDeF-fedc-BA9876543210")) 36
  = Returns (Throw non_hex_digits).
Proof.
  exact (parse_guid_rejects_non_hex
           (list_ascii_of_string "01234567-89aB-cDeF-fedc-BA9876543210")
           20 "000"%char eq_refl ltac:(lia) eq_refl eq_refl).
Defined.

(** parse_guid looks at the first 36 characters only: whatever follows
    them in memory, a terminator or more text, does not change the answer. *)
Theorem parse_guid_ignores_rest (s rest : list ascii) :
  length s = 36%nat ->
  parse_guid (s ++ rest) 36 = parse_guid s 36.
Proof.
  intros Hlen. rewrite !parse_guid_eq by (rewrite ?length_app; lia).
  explicit_chars s Hlen. destruct s; [| discriminate]. reflexivity.
Qed.

Lemma parse_guid_ignores_rest_witness :
  parse_guid
    (list_ascii_of_string "01234567-89aB-cDeF-fedc-BA9876543210"
       ++ list_ascii_of_string "}, and more") 36
  = parse_guid (list_ascii_of_string "01234567-89aB-cDeF-fedc-BA9876543210") 36.
Proof.
  exact (parse_guid_ignores_rest
           (list_ascii_of_string "01234567-89aB-cDeF-fedc-BA9876543210")
           (list_ascii_of_string "}, and more") eq_refl).
Defined.

Lemma hex_value_case_variant c1 c2 :
  is_hex_digit c1 = true -> is_hex_digit c2 = true ->
  hex_digit_value c1 = hex_digit_value c2 ->
  case_variant c1 c2.
Proof.
  intros H1 H2 Hv.
  each_char c1; vm_compute in H1; try discriminate H1; clear H1.
  all: each_char c2; vm_compute in H2; try discriminate H2; clear H2.
  all: vm_compute in Hv; try discriminate Hv; clear Hv.
  all: first [ by left | by right ].
Qed.

Lemma hex_fold_inj l1 :
  forall l2 acc1 acc2,
    length l1 = length l2 ->
    fold_left (fun acc c => 16 * acc + hex_digit_value c) l1 acc1 =
    fold_left (fun acc c => 16 * acc + hex_digit_value c) l2 acc2 ->
    acc1 = acc2 /\ map hex_digit_value l1 = map hex_digit_value l2.
Proof.
  induction l1 as [|c1 l1 IH]; intros [|c2 l2] acc1 acc2 Hlen H;
    try discriminate Hlen.
  - by split.
  - cbn [fold_left] in H. injection Hlen as Hlen.
    apply IH in H as [Hacc Hmap]; [| exact Hlen].
    pose proof (hex_digit_value_range c1). pose proof (hex_digit_value_range c2).
    assert (hex_digit_value c1 = hex_digit_value c2) by lia.
    split; [lia |]. cbn [map]. congruence.
Qed.

Lemma hex_bytes_inj n :
  forall l1 l2,
    length l1 = (2 * n)%nat -> length l2 = (2 * n)%nat ->
    hex_bytes l1 = hex_bytes l2 ->
    map hex_digit_value l1 = map hex_digit_value l2.
Proof.
  induction n as [|n IH]; intros l1 l2 H1 H2 H.
  - by destruct l1, l2.
  - destruct l1 as [|a1 [|b1 l1]]; try (simpl in H1; lia).
    destruct l2 as [|a2 [|b2 l2]]; try (simpl in H2; lia).
    cbn [hex_bytes] in H. injection H as Hb H.
    pose proof (hex_digit_value_range a1). pose proof (hex_digit_value_range a2).
    pose proof (hex_digit_value_range b1). pose proof (hex_digit_value_range b2).
    cbn [map]. rewrite (IH l1 l2) by (simpl in H1, H2; lia || done).
    f_equal; [lia |]. f_equal. lia.
Qed.

Lemma values_case_variant l1 :
  forall l2,
    forallb is_hex_digit l1 = true -> forallb is_hex_digit l2 = true ->
    map hex_digit_value l1 = map hex_digit_value l2 ->
    Forall2 case_variant l1 l2.
Proof.
  induction l1 as [|c1 l1 IH]; intros [|c2 l2] H1 H2 H; try discriminate H.
  - constructor.
  - cbn [forallb map] in *. apply andb_prop in H1 as [? ?].
    apply andb_prop in H2 as [? ?]. injection H as ? ?.
    constructor; [by apply hex_value_case_variant | by apply IH].
Qed.

Lemma canonical_split s :
  length s = 36%nat -> hyphens_ok s = true ->
  s = field s 0 8 ++ "-"%char :: field s 9 4 ++ "-"%char :: field s 14 4
        ++ "-"%char :: field s 19 4 ++ "-"%char :: field s 24 12.
Proof.
  intros Hlen Hhy. explicit_chars s Hlen. destruct s; [| discriminate].
  unfold hyphens_ok, is_hyphen_at in Hhy.
  cbn [lookup list_lookup] in Hhy.
  repeat (apply andb_prop in Hhy as [Hhy ?]).
  repeat match goal with
         | H : Ascii.eqb _ _ = true |- _ => apply Ascii.eqb_eq in H; subst
         end.
  reflexivity.
Qed.

Lemma field_length s pos len :
  (pos + len <= length s)%nat -> length (field s pos len) = len.
Proof. intros H. unfold field. rewrite length_take, length_drop. lia. Qed.

Lemma parse_guid_ok_inv s g :
  (36 <= length s)%nat ->
  parse_guid s 36 = Returns (Ok g) ->
  hyphens_ok s = true /\ forallb is_hex_digit (digits s) = true
  /\ g = decode s.
Proof.
  intros Hlen. rewrite parse_guid_eq by exact Hlen. unfold parse_spec.
  destruct (hyphens_ok s); [| discriminate]. cbn [negb].
  destruct (forallb is_hex_digit (digits s)); [| discriminate].
  intros H. by injection H as <-.
Qed.

(** Two 36-character strings that parse_guid reads as the same GUID are
    the same string up to the case of the hex letters: no two different
    identifiers share a GUID. *)
Theorem parse_guid_injective (s1 s2 : list ascii) (g : GUID) :
  length s1 = 36%nat ->
  length s2 = 36%nat ->
  parse_guid s1 36 = Returns (Ok g) ->
  parse_guid s2 36 = Returns (Ok g) ->
  Forall2 case_variant s1 s2.
Proof.
  intros L1 L2 P1 P2.
  apply parse_guid_ok_inv in P1 as (Hy1 & Hx1 & E1); [| lia].
  apply parse_guid_ok_inv in P2 as (Hy2 & Hx2 & E2); [| lia].
  subst g. unfold decode in E2. injection E2 as D1 D2 D3 D4.
  unfold digits in Hx1, Hx2. rewrite !forallb_app in Hx1, Hx2.
  repeat (apply andb_prop in Hx1 as [? Hx1]).
  repeat (apply andb_prop in Hx2 as [? Hx2]).
  apply app_inj_1 in D4 as [D4 D5];
    [| by rewrite !hex_bytes_length, !field_length by lia].
  rewrite (canonical_split s1 L1 Hy1), (canonical_split s2 L2 Hy2).
  repeat first [ apply Forall2_app | apply Forall2_cons_2; [by left |] ].
  all: apply values_case_variant; try done.
  - apply (hex_fold_inj _ _ 0 0); [by rewrite !field_length by lia | done].
  - apply (hex_fold_inj _ _ 0 0); [by rewrite !field_length by lia | done].
  - apply (hex_fold_inj _ _ 0 0); [by rewrite !field_length by lia | done].
  - apply (hex_bytes_inj 2); by rewrite ?field_length by lia.
  - apply (hex_bytes_inj 6); by rewrite ?field_length by lia.
Qed.

Lemma parse_guid_injective_witness :
  Forall2 case_variant
    (list_ascii_of_string "0a2b4c6d-8eAf-cDeF-fedc-BA9876543210")
    (list_ascii_of_string "0A2b4C6D-8EaF-CdEf-FEDC-ba9876543210").
Proof.
  exact (parse_guid_injective
           (list_ascii_of_string "0a2b4c6d-8eAf-cDeF-fedc-BA9876543210")
           (list_ascii_of_string "0A2b4C6D-8EaF-CdEf-FEDC-ba9876543210")
           {| Data1 := 0x0a2b4c6d; Data2 := 0x8eaf; Data3 := 0xcdef;
              Data4 := [0xfe; 0xdc; 0xba; 0x98; 0x76; 0x54; 0x32; 0x10] |}
           eq_refl eq_refl eq_refl eq_refl).
Defined.

Lemma hex_string_to_bytes_for_reads str todo :
  forall i (out out' : list Z),
    hex_string_to_bytes_for str out (S todo) i = Returns (true, out') ->
    (2 * (i + S todo) <= length str)%nat.
Proof.
  induction todo as [|todo IH]; intros i out out' H.
  all: cbn [hex_string_to_bytes_for] in H; unfold read in H.
  all: destruct (out !! i) as [cell|]; [| discriminate H].
  all: cbn [run_bind] in H.
  all: destruct (drop (i * 2) str) as [|a [|b rest]] eqn:E;
    try discriminate H.
  all: rewrite hex_octet_to_byte_eq in H; cbn [run_bind] in H.
  all: destruct (is_hex_digit a && is_hex_digit b); cbn [negb] in H;
    try discriminate H.
  all: assert (Hl : (2 <= length (drop (i * 2) str))%nat)
    by (rewrite E; simpl; lia).
  all: rewrite length_drop in Hl.
  - lia.
  - fold hex_string_to_bytes_for in H. apply IH in H. lia.
Qed.

Lemma parse_guid_ok_reads_all s g :
  parse_guid s 36 = Returns (Ok g) -> (36 <= length s)%nat.
Proof.
  unfold parse_guid. change (negb (36 =? UUID_STRING_LENGTH)) with false.
  cbv iota. intros H.
  destruct (or_else _ _) as [[|] | |]; try discriminate H.
  cbn [run_bind] in H. unfold and_then in H.
  repeat match type of H with
         | context [run_bind (hex_string_to_number ?T ?p ?v) _] =>
             destruct (hex_string_to_number T p v) as [[[] ?] | |];
             cbn [run_bind negb] in H; try discriminate H
         end.
  match type of H with
  | context [run_bind (hex_string_to_bytes ?p ?o 2) _] =>
      destruct (hex_string_to_bytes p o 2) as [[[] ?] | |];
      cbn [run_bind negb] in H; try discriminate H
  end.
  match type of H with
  | context [run_bind (hex_string_to_bytes ?p ?o 6) _] =>
      destruct (hex_string_to_bytes p o 6) as [[[] ?] | |] eqn:E;
      cbn [run_bind negb] in H; try discriminate H
  end.
  apply hex_string_to_bytes_for_reads in E.
  rewrite length_drop in E. unfold STR_POSITION_DATA4_PART2,
    STR_POSITION_DATA4_PART1, STR_POSITION_DATA3, STR_POSITION_DATA2 in E.
  lia.
Qed.

(** Whatever the buffer, parse_guid returns a GUID only after it has read
    36 characters inside the buffer, and every GUID it returns fits the
    structure: Data1 below 2^32, Data2 and Data3 below 2^16, Data4 eight
    bytes. *)
Theorem parse_guid_result_in_range (s : list ascii) (g : GUID) :
  parse_guid s 36 = Returns (Ok g) ->
  (36 <= length s)%nat /\ GUID_in_range g = true.
Proof.
  intros H. pose proof (parse_guid_ok_reads_all s g H) as Hlen.
  split; [exact Hlen |].
  apply parse_guid_ok_inv in H as (_ & _ & ->); [| exact Hlen].
  pose proof (hex_number_bound (field s 0 8)) as H1.
  pose proof (hex_number_bound (field s 9 4)) as H2.
  pose proof (hex_number_bound (field s 14 4)) as H3.
  rewrite field_length in H1, H2, H3 by lia.
  change (16 ^ Z.of_nat 8) with (2 ^ 32) in H1.
  change (16 ^ Z.of_nat 4) with (2 ^ 16) in H2, H3.
  unfold GUID_in_range, decode. cbn [Data1 Data2 Data3 Data4].
  rewrite length_app, !hex_bytes_length, !field_length by lia.
  rewrite forallb_app, !hex_bytes_bound.
  repeat (apply andb_true_intro; split);
    first [ apply Z.leb_le; lia | apply Z.ltb_lt; lia | reflexivity ].
Qed.

Lemma parse_guid_result_in_range_witness :
  (36 <= length (list_ascii_of_string
                   "FFFFFFFF-ffff-FFFF-ffff-FFFFFFFFFFFF--"))%nat
  /\ GUID_in_range
       {| Data1 := 0xFFFFFFFF; Data2 := 0xFFFF; Data3 := 0xFFFF;
          Data4 := [255; 255; 255; 255; 255; 255; 255; 255] |} = true.
Proof.
  exact (parse_guid_result_in_range
           (list_ascii_of_string "FFFFFFFF-ffff-FFFF-ffff-FFFFFFFFFFFF--")
           {| Data1 := 0xFFFFFFFF; Data2 := 0xFFFF; Data3 := 0xFFFF;
              Data4 := [255; 255; 255; 255; 255; 255; 255; 255] |}
           eq_refl).
Defined.

(** * Comparing GUIDs *)

Lemma memcmp_swap n :
  forall l1 l2 r, memcmp l1 l2 n = Returns r -> memcmp l2 l1 n = Returns (- r).
Proof.
  induction n as [|n IH]; intros l1 l2 r H.
  - cbn in H. injection H as <-. reflexivity.
  - destruct l1 as [|a l1], l2 as [|b l2]; try discriminate H.
    cbn [memcmp] in *.
    destruct (Z.ltb_spec a b), (Z.ltb_spec b a); try lia.
    + by injection H as <-.
    + by injection H as <-.
    + by apply IH.
Qed.

Lemma memcmp_zero n :
  forall l1 l2, memcmp l1 l2 n = Returns 0 -> take n l1 = take n l2.
Proof.
  induction n as [|n IH]; intros l1 l2 H; [reflexivity |].
  destruct l1 as [|a l1], l2 as [|b l2]; try discriminate H.
  cbn [memcmp] in H.
  destruct (Z.ltb_spec a b); [discriminate H |].
  destruct (Z.ltb_spec b a); [discriminate H |].
  cbn [take]. f_equal; [lia | by apply IH].
Qed.

Lemma memcmp_refl n : forall l, (n <= length l)%nat -> memcmp l l n = Returns 0.
Proof.
  induction n as [|n IH]; intros l H; [reflexivity |].
  destruct l as [|a l]; [simpl in H; lia |].
  cbn [memcmp]. rewrite Z.ltb_irrefl. apply IH. simpl in H. lia.
Qed.

Lemma memcmp_returns n :
  forall l1 l2,
    (n <= length l1)%nat -> (n <= length l2)%nat ->
    exists r, memcmp l1 l2 n = Returns r /\ (r = -1 \/ r = 0 \/ r = 1).
Proof.
  induction n as [|n IH]; intros l1 l2 H1 H2; [exists 0; auto |].
  destruct l1 as [|a l1], l2 as [|b l2]; try (simpl in *; lia).
  cbn [memcmp].
  destruct (a <? b); [exists (-1); auto |].
  destruct (b <? a); [exists 1; auto |].
  apply IH; simpl in *; lia.
Qed.

Lemma memcmp_trans n :
  forall l1 l2 l3,
    memcmp l1 l2 n = Returns (-1) -> memcmp l2 l3 n = Returns (-1) ->
    memcmp l1 l3 n = Returns (-1).
Proof.
  induction n as [|n IH]; intros l1 l2 l3 H12 H23; [discriminate H12 |].
  destruct l1 as [|a l1], l2 as [|b l2], l3 as [|c l3];
    try discriminate H12; try discriminate H23.
  cbn [memcmp] in *.
  destruct (Z.ltb_spec a b), (Z.ltb_spec b c), (Z.ltb_spec a c),
    (Z.ltb_spec b a), (Z.ltb_spec c b), (Z.ltb_spec c a);
    try lia; try discriminate H12; try discriminate H23; try reflexivity.
  by apply (IH l1 l2 l3).
Qed.

Lemma uint32_of_bytes x :
  0 <= x < 2 ^ 32 ->
  x = byte_of x 0 + 256 * byte_of x 1 + 65536 * byte_of x 2
      + 16777216 * byte_of x 3.
Proof.
  intros Hx. unfold byte_of.
  change (256 ^ Z.of_nat 0) with 1. change (256 ^ Z.of_nat 1) with 256.
  change (256 ^ Z.of_nat 2) with 65536.
  change (256 ^ Z.of_nat 3) with 16777216.
  change (2 ^ 32) with 4294967296 in Hx.
  Z.to_euclidean_division_equations. lia.
Qed.

Lemma uint16_of_bytes x :
  0 <= x < 2 ^ 16 -> x = byte_of x 0 + 256 * byte_of x 1.
Proof.
  intros Hx. unfold byte_of.
  change (256 ^ Z.of_nat 0) with 1. change (256 ^ Z.of_nat 1) with 256.
  change (2 ^ 16) with 65536 in Hx.
  Z.to_euclidean_division_equations. lia.
Qed.

Lemma object_representation_length g :
  length (Data4 g) = 8%nat -> length (object_representation g) = 16%nat.
Proof.
  intros H. unfold object_representation, bytes_of_uint.
  rewrite !length_app, !length_map, !length_seq, H. reflexivity.
Qed.

Lemma object_representation_inj g1 g2 :
  GUID_in_range g1 = true -> GUID_in_range g2 = true ->
  object_representation g1 = object_representation g2 -> g1 = g2.
Proof.
  intros R1 R2 H.
  apply GUID_in_range_fields in R1 as (A1 & A2 & A3 & _ & _).
  apply GUID_in_range_fields in R2 as (B1 & B2 & B3 & _ & _).
  destruct g1 as [x1 x2 x3 x4], g2 as [y1 y2 y3 y4].
  unfold object_representation, bytes_of_uint in H.
  cbn [Data1 Data2 Data3 Data4 sizeof unsigned_long unsigned_short seq map app]
    in *.
  injection H as E0 E1 E2 E3 E4 E5 E6 E7 E8.
  rewrite (uint32_of_bytes x1 A1), (uint32_of_bytes y1 B1).
  rewrite (uint16_of_bytes x2 A2), (uint16_of_bytes y2 B2).
  rewrite (uint16_of_bytes x3 A3), (uint16_of_bytes y3 B3).
  by rewrite E0, E1, E2, E3, E4, E5, E6, E7, E8.
Qed.

(** On GUIDs that fit the structure, operator== returns, and returns true
    exactly when the two GUIDs are the same value. *)
Theorem operator_eq_decides_equality (g1 g2 : GUID) :
  GUID_in_range g1 = true ->
  GUID_in_range g2 = true ->
  exists b, operator_eq g1 g2 = Returns b /\ (b = true <-> g1 = g2).
Proof.
  intros R1 R2. unfold operator_eq, sizeof_GUID.
  destruct (GUID_in_range_fields g1 R1) as (_ & _ & _ & L1 & _).
  destruct (GUID_in_range_fields g2 R2) as (_ & _ & _ & L2 & _).
  pose proof (object_representation_length g1 L1) as O1.
  pose proof (object_representation_length g2 L2) as O2.
  destruct (memcmp_returns 16 (object_representation g1)
              (object_representation g2)) as (r & Hr & Hcases); [lia | lia |].
  rewrite Hr. cbn [run_bind]. eexists. split; [reflexivity |].
  split.
  - intros H0. apply Z.eqb_eq in H0. subst r.
    apply memcmp_zero in Hr.
    rewrite !take_ge in Hr by lia. by apply object_representation_inj.
  - intros ->. rewrite memcmp_refl in Hr by lia. by injection Hr as <-.
Qed.

Lemma operator_eq_decides_equality_witness :
  exists b,
    operator_eq (last_byte 1) (last_byte 2) = Returns b
    /\ (b = true <-> last_byte 1 = last_byte 2).
Proof.
  exact (operator_eq_decides_equality (last_byte 1) (last_byte 2)
           eq_refl eq_refl).
Defined.

Lemma operator_lt_memcmp g1 g2 :
  GUID_in_range g1 = true -> GUID_in_range g2 = true ->
  exists r,
    memcmp (object_representation g1) (object_representation g2) 16
    = Returns r
    /\ (r = -1 \/ r = 0 \/ r = 1)
    /\ operator_lt g1 g2 = Returns (r <? 0)
    /\ operator_lt g2 g1 = Returns (- r <? 0)
    /\ (r = 0 -> g1 = g2).
Proof.
  intros R1 R2.
  destruct (GUID_in_range_fields g1 R1) as (_ & _ & _ & L1 & _).
  destruct (GUID_in_range_fields g2 R2) as (_ & _ & _ & L2 & _).
  pose proof (object_representation_length g1 L1) as O1.
  pose proof (object_representation_length g2 L2) as O2.
  destruct (memcmp_returns 16 (object_representation g1)
              (object_representation g2)) as (r & Hr & Hcases); [lia | lia |].
  exists r. split; [exact Hr |]. split; [exact Hcases |].
  unfold operator_lt, sizeof_GUID. rewrite Hr, (memcmp_swap _ _ _ _ Hr).
  repeat split. intros ->. apply memcmp_zero in Hr.
  rewrite !take_ge in Hr by lia. by apply object_representation_inj.
Qed.

(** On GUIDs that fit the structure, operator< is a strict total order: no
    GUID is below itself, the relation is transitive, and of two different
    GUIDs exactly one is below the other. *)
Theorem operator_lt_strict_total_order (a b c : GUID) :
  GUID_in_range a = true ->
  GUID_in_range b = true ->
  GUID_in_range c = true ->
  operator_lt a a = Returns false
  /\ (operator_lt a b = Returns true -> operator_lt b c = Returns true ->
      operator_lt a c = Returns true)
  /\ (a <> b ->
      (operator_lt a b = Returns true /\ operator_lt b a = Returns false)
      \/ (operator_lt a b = Returns false /\ operator_lt b a = Returns true)).
Proof.
  intros Ra Rb Rc. repeat split.
  - destruct (GUID_in_range_fields a Ra) as (_ & _ & _ & La & _).
    unfold operator_lt, sizeof_GUID.
    by rewrite memcmp_refl by (rewrite object_representation_length; lia).
  - destruct (operator_lt_memcmp a b Ra Rb) as (r1 & M1 & C1 & -> & _ & _).
    destruct (operator_lt_memcmp b c Rb Rc) as (r2 & M2 & C2 & -> & _ & _).
    intros H1 H2. injection H1 as H1. injection H2 as H2.
    apply Z.ltb_lt in H1, H2.
    assert (r1 = -1) by lia. assert (r2 = -1) by lia. subst r1 r2.
    unfold operator_lt, sizeof_GUID.
    by rewrite (memcmp_trans _ _ _ _ M1 M2).
  - intros Hne.
    destruct (operator_lt_memcmp a b Ra Rb) as (r & _ & C & -> & -> & E).
    destruct C as [-> | [-> | ->]]; [by left | by destruct Hne; apply E
                                    | by right].
Qed.

Lemma operator_lt_strict_total_order_witness :
  operator_lt (last_byte 1) (last_byte 1) = Returns false
  /\ operator_lt (last_byte 1) (last_byte 3) = Returns true.
Proof.
  destruct (operator_lt_strict_total_order (last_byte 1) (last_byte 2)
              (last_byte 3) eq_refl eq_refl eq_refl) as (H1 & H2 & _).
  split; [exact H1 | apply H2; reflexivity].
Defined.

Lemma byte_of_0 z : byte_of z 0 = z mod 256.
Proof. unfold byte_of. change (256 ^ Z.of_nat 0) with 1. by rewrite Z.div_1_r. Qed.

(** operator< compares the bytes as they lie in memory, so the least
    significant byte of Data1 decides first: the GUID whose Data1 has the
    smaller low byte is the smaller one, whatever the numeric order of the
    fields (a Data1 of 0x00000100 is below a Data1 of 0x00000001). *)
Theorem operator_lt_low_byte_first (a b : GUID) :
  Data1 a mod 256 < Data1 b mod 256 ->
  operator_lt a b = Returns true /\ operator_lt b a = Returns false.
Proof.
  intros H. unfold operator_lt, sizeof_GUID, object_representation,
    bytes_of_uint.
  cbn [sizeof unsigned_long seq map app memcmp]. rewrite !byte_of_0.
  destruct (Z.ltb_spec (Data1 a mod 256) (Data1 b mod 256)); [| lia].
  destruct (Z.ltb_spec (Data1 b mod 256) (Data1 a mod 256)); [lia |].
  by split.
Qed.

Lemma operator_lt_low_byte_first_witness :
  operator_lt
    {| Data1 := 0x00000100; Data2 := 0; Data3 := 0; Data4 := replicate 8 0 |}
    {| Data1 := 0x00000001; Data2 := 0; Data3 := 0; Data4 := replicate 8 0 |}
  = Returns true.
Proof.
  exact (proj1 (operator_lt_low_byte_first
                  {| Data1 := 0x00000100; Data2 := 0; Data3 := 0;
                     Data4 := replicate 8 0 |}
                  {| Data1 := 0x00000001; Data2 := 0; Data3 := 0;
                     Data4 := replicate 8 0 |} eq_refl)).
Defined.

Lemma bytes_of_hex_long a0 a1 a2 a3 a4 a5 a6 a7 :
  bytes_of_uint unsigned_long (hex_number [a0; a1; a2; a3; a4; a5; a6; a7]) =
  rev (hex_bytes [a0; a1; a2; a3; a4; a5; a6; a7]).
Proof.
  unfold bytes_of_uint, hex_number, byte_of.
  cbn [sizeof unsigned_long seq map fold_left hex_bytes rev app].
  change (256 ^ Z.of_nat 0) with 1. change (256 ^ Z.of_nat 1) with 256.
  change (256 ^ Z.of_nat 2) with 65536.
  change (256 ^ Z.of_nat 3) with 16777216.
  pose proof (hex_digit_value_range a0). pose proof (hex_digit_value_range a1).
  pose proof (hex_digit_value_range a2). pose proof (hex_digit_value_range a3).
  pose proof (hex_digit_value_range a4). pose proof (hex_digit_value_range a5).
  pose proof (hex_digit_value_range a6). pose proof (hex_digit_value_range a7).
  repeat f_equal; Z.to_euclidean_division_equations; lia.
Qed.

Lemma bytes_of_hex_short a0 a1 a2 a3 :
  bytes_of_uint unsigned_short (hex_number [a0; a1; a2; a3]) =
  rev (hex_bytes [a0; a1; a2; a3]).
Proof.
  unfold bytes_of_uint, hex_number, byte_of.
  cbn [sizeof unsigned_short seq map fold_left hex_bytes rev app].
  change (256 ^ Z.of_nat 0) with 1. change (256 ^ Z.of_nat 1) with 256.
  pose proof (hex_digit_value_range a0). pose proof (hex_digit_value_range a1).
  pose proof (hex_digit_value_range a2). pose proof (hex_digit_value_range a3).
  repeat f_equal; Z.to_euclidean_division_equations; lia.
Qed.

(** The 16 bytes of a parsed GUID, as they lie in memory, are the octets
    of the text with the first three groups byte-reversed and the last two
    groups in text order: "00112233-4455-6677-8899-AABBCCDDEEFF" gives
    33 22 11 00, 55 44, 77 66, 88 99, AA BB CC DD EE FF. *)
Theorem parse_guid_memory_layout (s : list ascii) (g : GUID) :
  parse_guid s 36 = Returns (Ok g) ->
  object_representation g =
  rev (hex_bytes (field s 0 8)) ++ rev (hex_bytes (field s 9 4))
  ++ rev (hex_bytes (field s 14 4))
  ++ hex_bytes (field s 19 4) ++ hex_bytes (field s 24 12).
Proof.
  intros H. pose proof (parse_guid_ok_reads_all s g H) as Hlen.
  apply parse_guid_ok_inv in H as (_ & _ & ->); [| exact Hlen].
  explicit_chars s Hlen. clear Hlen.
  unfold object_representation, decode, field.
  cbn [Data1 Data2 Data3 Data4 take drop].
  by rewrite bytes_of_hex_long, !bytes_of_hex_short.
Qed.

Lemma parse_guid_memory_layout_witness :
  object_representation
    {| Data1 := 0x00112233; Data2 := 0x4455; Data3 := 0x6677;
       Data4 := [0x88; 0x99; 0xAA; 0xBB; 0xCC; 0xDD; 0xEE; 0xFF] |}
  = [0x33; 0x22; 0x11; 0x00; 0x55; 0x44; 0x77; 0x66;
     0x88; 0x99; 0xAA; 0xBB; 0xCC; 0xDD; 0xEE; 0xFF].
Proof.
  exact (parse_guid_memory_layout
           (list_ascii_of_string "00112233-4455-6677-8899-AABBCCDDEEFF")
           {| Data1 := 0x00112233; Data2 := 0x4455; Data3 := 0x6677;
              Data4 := [0x88; 0x99; 0xAA; 0xBB; 0xCC; 0xDD; 0xEE; 0xFF] |}
           eq_refl).
Defined.

(** * Further properties of the extractor *)

Lemma copy_container_id_short data todo :
  forall c buffer,
    (c <= length data < c + todo)%nat ->
    copy_container_id data buffer todo c = OutOfBounds.
Proof.
  induction todo as [|todo IH]; intros c buffer H; [lia |].
  cbn [copy_container_id]. unfold read.
  destruct (data !! c) as [ch|] eqn:E; [| reflexivity].
  cbn [run_bind]. apply IH. apply lookup_lt_Some in E. lia.
Qed.

Lemma wchar_of_char_nonzero c :
  Ascii.eqb c "000" = false -> (wchar_of_char c =? 0) = false.
Proof. each_char c; intros H; try discriminate H; reflexivity. Qed.

Lemma wcs_app_no_nul l rest :
  no_nul l = true ->
  wcs (map wchar_of_char l ++ rest) = map wchar_of_char l ++ wcs rest.
Proof.
  unfold no_nul. induction l as [|c l IH]; [reflexivity |].
  cbn [forallb map app wcs]. intros [Hc Hl]%andb_prop.
  apply negb_true_iff in Hc.
  by rewrite (wchar_of_char_nonzero c Hc), IH.
Qed.

Section ExtractorSafety.
Variable EVENT_HEADER_EXT_TYPE_CONTAINER_ID : Z.
Variable CLSIDFromString : list Z -> Z * GUID.
Variable Guid : Type.
Variable ConvertGuid : GUID -> Guid.

Lemma scan_returns NDEBUG record_ todo :
  forall i,
    (i + todo <= length (ExtendedData record_))%nat ->
    Forall (fun x => ExtType x = EVENT_HEADER_EXT_TYPE_CONTAINER_ID ->
                     DataSize x = 36 /\ (36 <= length (DataPtr x))%nat)
      (take todo (drop i (ExtendedData record_))) ->
    exists r,
      GetContainerId_for EVENT_HEADER_EXT_TYPE_CONTAINER_ID CLSIDFromString
        Guid ConvertGuid NDEBUG record_ todo i = Returns r.
Proof.
  induction todo as [|todo IH]; intros i Hlen Hall; [by eexists |].
  destruct (lookup_lt_is_Some_2 (ExtendedData record_) i) as [x Hx]; [lia |].
  rewrite (drop_S _ _ _ Hx) in Hall. cbn [take] in Hall.
  apply Forall_cons in Hall as [Hx' Hall].
  cbn [GetContainerId_for]. unfold read. rewrite Hx. cbn [run_bind].
  destruct (Z.eqb_spec (ExtType x) EVENT_HEADER_EXT_TYPE_CONTAINER_ID)
    as [E | _].
  - destruct (Hx' E) as [Hsize Hdata].
    rewrite container_id_of_eq by (done || by right). by eexists.
  - apply IH; [lia | done].
Qed.

(** On a record whose item count does not exceed its item array and whose
    container-id items each declare 36 bytes and hold them, GetContainerId
    always comes back to its caller, with a value or with the managed
    exception: it reads nothing outside the array or a payload and does not
    stop at the assertion, in either build. *)
Theorem GetContainerId_returns (NDEBUG : bool) (record_ : EVENT_RECORD) :
  (ExtendedDataCount record_ <= length (ExtendedData record_))%nat ->
  Forall (fun x => ExtType x = EVENT_HEADER_EXT_TYPE_CONTAINER_ID ->
                   DataSize x = 36 /\ (36 <= length (DataPtr x))%nat)
    (take (ExtendedDataCount record_) (ExtendedData record_)) ->
  exists r,
    GetContainerId EVENT_HEADER_EXT_TYPE_CONTAINER_ID CLSIDFromString Guid
      ConvertGuid NDEBUG record_ = Returns r.
Proof.
  intros Hlen Hall. unfold GetContainerId. by apply scan_returns.
Qed.

(** The copy loop always takes 36 bytes. When the first container-id item
    has fewer than 36 bytes readable at DataPtr, the loop reads past them:
    in a build with NDEBUG whatever length the item declares, in a build
    with assertions when the item declares 36. *)
Theorem GetContainerId_overreads_short_payload (NDEBUG : bool)
    (record_ : EVENT_RECORD) (k : nat)
    (item : EVENT_HEADER_EXTENDED_DATA_ITEM) :
  first_container_id EVENT_HEADER_EXT_TYPE_CONTAINER_ID record_ k item ->
  NDEBUG = true \/ DataSize item = 36 ->
  (length (DataPtr item) < 36)%nat ->
  GetContainerId EVENT_HEADER_EXT_TYPE_CONTAINER_ID CLSIDFromString Guid
    ConvertGuid NDEBUG record_ = OutOfBounds.
Proof.
  intros Hfirst Hchk Hshort. rewrite (scan_finds _ _ _ _ _ _ _ _ Hfirst).
  unfold container_id_of, assert.
  replace (NDEBUG
           || (DataSize item =? Z.of_nat CONTAINER_ID_DATA_LENGTH_IN_BYTES))
    with true.
  2:{ destruct Hchk as [-> | ->]; [reflexivity |]. by rewrite orb_true_r. }
  cbn [run_bind]. rewrite copy_container_id_short; [reflexivity |].
  unfold CONTAINER_ID_DATA_LENGTH_IN_BYTES. lia.
Qed.

(** For a first container-id item with 36 bytes, the answer of
    CLSIDFromString on the braced text decides: S_OK gives the converted
    GUID, every other HRESULT (also one that is not a failure code) gives
    ContainerIdFormatException with that HRESULT and the text; when the
    payload has no NUL byte the text is the payload between braces. *)
Theorem GetContainerId_conversion_outcome (NDEBUG : bool)
    (record_ : EVENT_RECORD) (k : nat)
    (item : EVENT_HEADER_EXTENDED_DATA_ITEM) (hr : Z) (g : GUID) :
  first_container_id EVENT_HEADER_EXT_TYPE_CONTAINER_ID record_ k item ->
  DataSize item = 36 ->
  (36 <= length (DataPtr item))%nat ->
  CLSIDFromString (braced (DataPtr item)) = (hr, g) ->
  GetContainerId EVENT_HEADER_EXT_TYPE_CONTAINER_ID CLSIDFromString Guid
    ConvertGuid NDEBUG record_ =
    Returns (if hr =? S_OK then Result (Some (ConvertGuid g))
             else ContainerIdFormatException hr (wcs (braced (DataPtr item))))
  /\ (no_nul (take 36 (DataPtr item)) = true ->
      wcs (braced (DataPtr item)) =
      wide "{" ++ map wchar_of_char (take 36 (DataPtr item)) ++ wide "}").
Proof.
  intros Hfirst Hsize Hdata Hcall. split.
  - rewrite (scan_finds _ _ _ _ _ _ _ _ Hfirst).
    rewrite container_id_of_eq by (done || by right).
    unfold parse_container_id. rewrite Hcall.
    by destruct (hr =? S_OK).
  - intros Hnul. unfold braced.
    change (wide "{" ++ ?l) with (123 :: l). cbn [wcs Z.eqb].
    by rewrite wcs_app_no_nul.
Qed.
End ExtractorSafety.

Lemma GetContainerId_returns_witness :
  exists r,
    GetContainerId CONTAINER_ID_TAG CLSIDFromString_spec GUID (fun g => g)
      false record_with_two = Returns r.
Proof.
  apply (GetContainerId_returns CONTAINER_ID_TAG CLSIDFromString_spec GUID
           (fun g => g) false record_with_two).
  - simpl. lia.
  - cbn [take record_with_two ExtendedDataCount ExtendedData].
    repeat first [ apply Forall_nil_2 | apply Forall_cons_2 ].
    all: intros E; try discriminate E.
    all: split; [reflexivity | vm_compute; lia].
Defined.

Lemma GetContainerId_overreads_short_payload_witness :
  GetContainerId CONTAINER_ID_TAG CLSIDFromString_spec GUID (fun g => g)
    true record_short = OutOfBounds.
Proof.
  apply (GetContainerId_overreads_short_payload CONTAINER_ID_TAG
           CLSIDFromString_spec GUID (fun g => g) true record_short 1%nat
           (container_item 35 "00000000-0000-0000-0000-00000000001")).
  - repeat split; [simpl; lia | repeat constructor; discriminate].
  - left. reflexivity.
  - vm_compute. lia.
Defined.

Lemma GetContainerId_conversion_outcome_witness :
  GetContainerId CONTAINER_ID_TAG CLSIDFromString_spec GUID (fun g => g)
    false record_with_two
  = Returns (Result (Some (last_byte 1))).
Proof.
  apply (proj1 (GetContainerId_conversion_outcome CONTAINER_ID_TAG
                  CLSIDFromString_spec GUID (fun g => g) false
                  record_with_two 1%nat
                  (container_item 36 "00000000-0000-0000-0000-000000000001")
                  S_OK (last_byte 1)
                  ltac:(repeat split; [simpl; lia
                                      | repeat constructor; discriminate])
                  eq_refl ltac:(vm_compute; lia) eq_refl)).
Defined.
